(** * cert-manage: whitelist filtering and the darwin trust-store backend

    A shallow embedding of [certs/keep.go] and of the darwin [store]
    backend (the keychain backend built on the [security] command line
    tool), together with the properties of the specification that are
    about them.

    Conventions of the embedding:
    - a Go [string] is a [string]; a [[]byte] is a [list byte];
    - a [*x509.Certificate] is an [option Certificate], [None] being the
      nil pointer;
    - a function that can return an error returns an [outcome], which also
      records a run-time panic (nil dereference, index out of range), and
      an input on which the embedding gives no answer ([NotModelled]);
    - [encoding/xml], [encoding/base64], [time] and [strings] are
      modelled as far as the store uses them; [asn1], [pkix] and
      [filepath] are the fields of the class [GoLib], and the packages
      [tools/_x509] and [tools/pem] of the repository, which are not among
      the modelled files, those of the class [CertTools];
    - the operating system and the [security] tool answer through a
      [Host], and the file system is a finite map from paths to
      contents. *)

From Stdlib Require Import ZArith String Ascii List Lia Bool.
From Stdlib.Strings Require Import Byte.
From stdpp Require Import base option list sorting strings gmap.

Local Open Scope string_scope.
Local Open Scope list_scope.
Local Open Scope Z_scope.

(** ** Results of fallible code *)

Definition error := string.

Inductive outcome (A : Type) : Type :=
| Ok (a : A)
| Err (e : error)
| Panic (msg : string)
| NotModelled.
Arguments Ok {A} a.
Arguments Err {A} e.
Arguments Panic {A} msg.
Arguments NotModelled {A}.

Definition nil_dereference : string :=
  "invalid memory address or nil pointer dereference".
Definition index_out_of_range : string := "index out of range".

Definition obind {A B} (m : outcome A) (k : A -> outcome B) : outcome B :=
  match m with
  | Ok a => k a
  | Err e => Err e
  | Panic s => Panic s
  | NotModelled => NotModelled
  end.

(** A Go pair [(T, error)] coming from the operating system or a library:
    the value, or a non-nil error. *)
Inductive result (A : Type) : Type :=
| Success (a : A)
| Failure (e : error).
Arguments Success {A} a.
Arguments Failure {A} e.

Notation "'let*' x ':=' m 'in' k" := (obind m (fun x => k))
  (at level 10, x name, m at level 100, k at level 200).

#[export] Instance byte_eq_dec : EqDecision byte := Byte.byte_eq_dec.

(** ** Certificates and the imported libraries *)

Class GoLib : Type := {
  (** [pkix.Name] and [pkix.RDNSequence] *)
  Name : Type;
  Name_eq_dec :: EqDecision Name;
  emptyName : Name;
  RDNSequence : Type;
  ToRDNSequence : Name -> RDNSequence;
  FillFromRDNSequence : RDNSequence -> Name;
  (** [asn1.Marshal] and [asn1.Unmarshal] on an RDN sequence; [None] is a
      non-nil error *)
  asn1_Marshal : RDNSequence -> option (list byte);
  asn1_Unmarshal : list byte -> option RDNSequence;
  (** [filepath.Join] *)
  filepath_Join : string -> string -> string;
}.

Section Certificates.
Context `{GoLib}.

(** The fields of [x509.Certificate] the modelled code reads.  Byte
    slices are compared by their contents ([reflect.DeepEqual] on two
    non-nil slices). *)
Record Certificate : Type := {
  Raw : list byte;
  Signature : list byte;
  Issuer : Name;
  SerialNumber : Z;
}.

#[export] Instance Certificate_eq_dec : EqDecision Certificate.
Proof. solve_decision. Defined.

End Certificates.

(** [_x509.GetHexSHA1Fingerprint] and [pem.Parse], from the packages
    [tools/_x509] and [tools/pem]. *)
Class CertTools `{GoLib} : Type := {
  GetHexSHA1Fingerprint : Certificate -> string;
  pem_Parse : list byte -> result (list (option Certificate));
}.

(** ** certs/keep.go *)

Module Certs.
Section Keep.
Context `{CertTools}.

(** [WhitelistItem] is an interface with one method,
    [Matches(x509.Certificate) bool]. *)
Context {WhitelistItem : Type} (Matches : WhitelistItem -> Certificate -> bool).

(** The body of the inner loop: [if inc != nil && wh.Matches( *inc)]
    appends [inc] to [keep]. *)
Definition keep_step (inc : option Certificate)
    (keep : list (option Certificate)) (wh : WhitelistItem)
  : list (option Certificate) :=
  match inc with
  | Some c => if Matches wh c then keep ++ [inc] else keep
  | None => keep
  end.

Definition Keep (incoming : list (option Certificate))
    (whitelisted : list WhitelistItem) : list (option Certificate) :=
  fold_left
    (fun keep inc => fold_left (keep_step inc) whitelisted keep)
    incoming [].

(** What one pass of the inner loop appends for [inc]. *)
Definition matches_of (inc : option Certificate)
    (whitelisted : list WhitelistItem) : list (option Certificate) :=
  match inc with
  | Some c => map (fun _ => inc) (filter (fun wh => Matches wh c = true) whitelisted)
  | None => []
  end.

(** The fingerprints of a list of certificates, nil entries left out. *)
Definition fingerprints (cs : list (option Certificate)) : list string :=
  omap (fun c => GetHexSHA1Fingerprint <$> c) cs.

(** The number of whitelist items that match an entry; none matches nil. *)
Definition matching_items (whitelisted : list WhitelistItem)
    (inc : option Certificate) : nat :=
  match inc with
  | Some c => length (filter (fun wh => Matches wh c = true) whitelisted)
  | None => 0
  end.

End Keep.
End Certs.

(** ** The parts of the Go standard library the store calls

    Strings are sequences of bytes.  The functions below act on the ASCII
    range, which holds every character the store writes (hexadecimal
    fingerprints, base64 text, timestamps); bytes from 128 on are left as
    they are by the case mappings. *)

Module GoStrings.

Fixpoint smap (f : ascii -> ascii) (s : string) : string :=
  match s with
  | EmptyString => EmptyString
  | String c s' => String (f c) (smap f s')
  end.

Fixpoint sfilter (f : ascii -> bool) (s : string) : string :=
  match s with
  | EmptyString => EmptyString
  | String c s' => if f c then String c (sfilter f s') else sfilter f s'
  end.

Fixpoint sforall (f : ascii -> bool) (s : string) : bool :=
  match s with
  | EmptyString => true
  | String c s' => f c && sforall f s'
  end.

Definition in_range (lo hi : N) (c : ascii) : bool :=
  let n := N_of_ascii c in ((lo <=? n) && (n <=? hi))%N.

Definition is_upper : ascii -> bool := in_range 65 90.
Definition is_lower : ascii -> bool := in_range 97 122.
Definition is_digit : ascii -> bool := in_range 48 57.

Definition upper_char (c : ascii) : ascii :=
  if is_lower c then ascii_of_N (N_of_ascii c - 32) else c.
Definition lower_char (c : ascii) : ascii :=
  if is_upper c then ascii_of_N (N_of_ascii c + 32) else c.

(** [strings.ToUpper] and [strings.ToLower] *)
Definition ToUpper : string -> string := smap upper_char.
Definition ToLower : string -> string := smap lower_char.

(** [strings.TrimSpace], for the ASCII white space *)
Definition is_space (c : ascii) : bool :=
  let n := N_of_ascii c in ((n =? 32) || ((9 <=? n) && (n <=? 13)))%N.

Fixpoint trim_left (s : string) : string :=
  match s with
  | String c s' => if is_space c then trim_left s' else s
  | EmptyString => EmptyString
  end.

Fixpoint trim_right (s : string) : string :=
  match s with
  | EmptyString => EmptyString
  | String c s' =>
      match trim_right s' with
      | EmptyString => if is_space c then EmptyString else String c EmptyString
      | t => String c t
      end
  end.

Definition TrimSpace (s : string) : string := trim_right (trim_left s).

(** [strconv.ParseBool] *)
Definition ParseBool (s : string) : option bool :=
  if existsb (String.eqb s) ["1"; "t"; "T"; "TRUE"; "true"; "True"] then Some true
  else if existsb (String.eqb s) ["0"; "f"; "F"; "FALSE"; "false"; "False"] then Some false
  else None.

(** Decimal digits of a natural number, at least [width] of them:
    [fmt.Sprintf("%d", n)] is [pad_digits 1 n] and the zero-padded fields of
    a timestamp are [pad_digits 2] and [pad_digits 4]. *)
Definition digit_char (n : N) : ascii := ascii_of_N (48 + n mod 10).

Fixpoint digits_fuel (fuel : nat) (n : N) (acc : string) : string :=
  match fuel with
  | O => acc
  | S fuel' =>
      let acc' := String (digit_char n) acc in
      if (n <? 10)%N then acc' else digits_fuel fuel' (n / 10)%N acc'
  end.

Definition digits (n : N) : string := digits_fuel (S (N.to_nat (N.log2 n))) n "".

Fixpoint zeros (k : nat) : string :=
  match k with O => "" | S k' => String "0" (zeros k') end.

Definition pad_digits (width : nat) (n : N) : string :=
  let d := digits n in zeros (width - String.length d) +:+ d.

(** [appendInt] of package [time], which is also what ["%d"] prints *)
Definition appendInt (x : Z) (width : nat) : string :=
  if x <? 0 then String "-" (pad_digits width (Z.to_N (- x)))
  else pad_digits width (Z.to_N x).

End GoStrings.

(** *** encoding/base64, the standard encoding with padding *)

Module Base64.

Definition encodeStd : string :=
  "ABCDEFGHIJKLMNOPQRSTUVWXYZabcdefghijklmnopqrstuvwxyz0123456789+/".

Definition padChar : ascii := "="%char.

Definition byte_of_N (n : N) : byte := byte_of_ascii (ascii_of_N n).

(** The character of a 6-bit value. *)
Definition enc (n : N) : ascii :=
  match String.get (N.to_nat n) encodeStd with
  | Some c => c
  | None => padChar
  end.

Fixpoint index_from (k : N) (c : ascii) (s : string) : option N :=
  match s with
  | EmptyString => None
  | String c' s' => if Ascii.eqb c c' then Some k else index_from (N.succ k) c s'
  end.

(** [decodeMap]: the 6-bit value of a character of the alphabet. *)
Definition decodeMap (c : ascii) : option N := index_from 0 c encodeStd.

Definition quantum (b0 b1 b2 : byte) : N :=
  (Byte.to_N b0 * 65536 + Byte.to_N b1 * 256 + Byte.to_N b2)%N.

Definition sextet (val : N) (i : N) : ascii :=
  enc ((val / 64 ^ (3 - i)) mod 64)%N.

Fixpoint EncodeToString (src : list byte) : string :=
  match src with
  | [] => ""
  | [b0] =>
      let val := quantum b0 x00 x00 in
      String (sextet val 0) (String (sextet val 1)
        (String padChar (String padChar "")))
  | [b0; b1] =>
      let val := quantum b0 b1 x00 in
      String (sextet val 0) (String (sextet val 1)
        (String (sextet val 2) (String padChar "")))
  | b0 :: b1 :: b2 :: rest =>
      let val := quantum b0 b1 b2 in
      String (sextet val 0) (String (sextet val 1)
        (String (sextet val 2) (String (sextet val 3) (EncodeToString rest))))
  end.

Definition CorruptInputError : error := "illegal base64 data".

(** The value of four 6-bit digits and its three bytes. *)
Definition unquantum (d0 d1 d2 d3 : N) : N :=
  (d0 * 262144 + d1 * 4096 + d2 * 64 + d3)%N.
Definition out_byte (val : N) (i : N) : byte :=
  byte_of_N ((val / 256 ^ (2 - i)) mod 256)%N.

(** One quantum at a time: the bytes decoded before the first corrupt
    quantum are returned together with the error. *)
Fixpoint decode (s : string) : list byte * option error :=
  let corrupt := ([], Some CorruptInputError) in
  match s with
  | EmptyString => ([], None)
  | String c0 (String c1 (String c2 (String c3 rest))) =>
      match decodeMap c0, decodeMap c1 with
      | Some d0, Some d1 =>
          match decodeMap c2 with
          | Some d2 =>
              match decodeMap c3 with
              | Some d3 =>
                  let val := unquantum d0 d1 d2 d3 in
                  let '(bs, err) := decode rest in
                  (out_byte val 0 :: out_byte val 1 :: out_byte val 2 :: bs, err)
              | None =>
                  if Ascii.eqb c3 padChar then
                    let val := unquantum d0 d1 d2 0 in
                    ([out_byte val 0; out_byte val 1],
                     match rest with
                     | EmptyString => None
                     | _ => Some CorruptInputError
                     end)
                  else corrupt
              end
          | None =>
              if Ascii.eqb c2 padChar && Ascii.eqb c3 padChar then
                let val := unquantum d0 d1 0 0 in
                ([out_byte val 0],
                 match rest with
                 | EmptyString => None
                 | _ => Some CorruptInputError
                 end)
              else corrupt
          end
      | _, _ => corrupt
      end
  | _ => corrupt
  end.

Definition is_newline (c : ascii) : bool :=
  Ascii.eqb c "010"%char || Ascii.eqb c "013"%char.

(** [base64.StdEncoding.DecodeString]: line breaks are skipped. *)
Definition DecodeString (s : string) : list byte * option error :=
  decode (GoStrings.sfilter (fun c => negb (is_newline c)) s).

End Base64.

(** *** time

    A [time.Time] is represented by what [Date], [Clock], [Nanosecond] and
    [Zone] return for it: the calendar fields in the time's own location and
    the offset of that location, in seconds east of UTC. *)

Module GoTime.
Import GoStrings.

Record Time : Type := {
  year : Z; month : Z; day : Z;
  hour : Z; minute : Z; second : Z;
  nanosecond : Z;
  zoneOffset : Z;
}.

#[export] Instance Time_eq_dec : EqDecision Time.
Proof. solve_decision. Defined.

(** The zero [Time]: January 1, year 1, 00:00:00 UTC. *)
Definition zeroTime : Time :=
  {| year := 1; month := 1; day := 1; hour := 0; minute := 0; second := 0;
     nanosecond := 0; zoneOffset := 0 |}.

Definition isLeap (y : Z) : bool :=
  (y mod 4 =? 0) && (negb (y mod 100 =? 0) || (y mod 400 =? 0)).

Definition daysIn (m y : Z) : Z :=
  if m =? 2 then (if isLeap y then 29 else 28)
  else if (m =? 4) || (m =? 6) || (m =? 9) || (m =? 11) then 30
  else 31.

(** Days from 1970-01-01 to the given date of the proleptic Gregorian
    calendar. *)
Definition daysFromCivil (y m d : Z) : Z :=
  let y' := if m <=? 2 then y - 1 else y in
  let era := y' / 400 in
  let yoe := y' - era * 400 in
  let doy := (153 * (if 2 <? m then m - 3 else m + 9) + 2) / 5 + d - 1 in
  let doe := yoe * 365 + yoe / 4 - yoe / 100 + doy in
  era * 146097 + doe - 719468.

(** [Time.Unix]: seconds since 1970-01-01T00:00:00 UTC. *)
Definition Unix (t : Time) : Z :=
  daysFromCivil (year t) (month t) (day t) * 86400
  + hour t * 3600 + minute t * 60 + second t - zoneOffset t.

(** [Time.Equal] at second granularity: the same instant once the
    fraction of the second is dropped. *)
Definition sameSecond (t u : Time) : Prop := Unix t = Unix u.

(** [t.Format("2006-01-02T15:04:05Z")].  The layout has no zone element:
    its last character is literal text, and the fields printed are those of
    [t] in its own location. *)
Definition Format (t : Time) : string :=
  appendInt (year t) 4 +:+ "-" +:+ appendInt (month t) 2 +:+ "-"
  +:+ appendInt (day t) 2 +:+ "T" +:+ appendInt (hour t) 2 +:+ ":"
  +:+ appendInt (minute t) 2 +:+ ":" +:+ appendInt (second t) 2 +:+ "Z".

Definition digit_val (c : ascii) : option Z :=
  if is_digit c then Some (Z.of_N (N_of_ascii c) - 48) else None.

(** [getnum(s, fixed)]: one or two digits, exactly two when [fixed]. *)
Definition getnum (fixed : bool) (s : string) : option (Z * string) :=
  match s with
  | String c0 rest =>
      match digit_val c0 with
      | None => None
      | Some d0 =>
          match rest with
          | String c1 rest' =>
              match digit_val c1 with
              | Some d1 => Some (d0 * 10 + d1, rest')
              | None => if fixed then None else Some (d0, rest)
              end
          | EmptyString => if fixed then None else Some (d0, rest)
          end
      end
  | EmptyString => None
  end.

(** The four digits of [stdLongYear]. *)
Definition getyear (s : string) : option (Z * string) :=
  match s with
  | String c0 (String c1 (String c2 (String c3 rest))) =>
      match digit_val c0, digit_val c1, digit_val c2, digit_val c3 with
      | Some d0, Some d1, Some d2, Some d3 =>
          Some (d0 * 1000 + d1 * 100 + d2 * 10 + d3, rest)
      | _, _, _, _ => None
      end
  | _ => None
  end.

(** A literal character of the layout. *)
Definition skip (c : ascii) (s : string) : option string :=
  match s with
  | String c' rest => if Ascii.eqb c c' then Some rest else None
  | EmptyString => None
  end.

(** A fraction of a second after the seconds, accepted although the layout
    has none: at most nine digits count, the rest are dropped. *)
Fixpoint fraction_digits (s : string) (left : nat) (acc : Z) : Z * string :=
  match s with
  | String c rest =>
      match digit_val c with
      | Some d =>
          match left with
          | O => fraction_digits rest O acc
          | S left' => fraction_digits rest left' (acc + d * 10 ^ Z.of_nat left')
          end
      | None => (acc, s)
      end
  | EmptyString => (acc, s)
  end.

Definition fraction (s : string) : Z * string :=
  match s with
  | String c (String c1 _ as rest) =>
      if (Ascii.eqb c "."%char || Ascii.eqb c ","%char) && is_digit c1
      then fraction_digits rest 9 0
      else (0, s)
  | _ => (0, s)
  end.

Definition in_bounds (lo hi x : Z) : option unit :=
  if (lo <=? x) && (x <=? hi) then Some tt else None.

(** [time.ParseInLocation("2006-01-02T15:04:05Z", s, time.UTC)]; [None]
    is a non-nil error. *)
Definition ParseInLocation (s : string) : option Time :=
  '(y, s) ← getyear s;
  s ← skip "-" s;
  '(mo, s) ← getnum true s;
  _ ← in_bounds 1 12 mo;
  s ← skip "-" s;
  '(d, s) ← getnum true s;
  s ← skip "T" s;
  '(h, s) ← getnum false s;
  _ ← in_bounds 0 23 h;
  s ← skip ":" s;
  '(mi, s) ← getnum true s;
  _ ← in_bounds 0 59 mi;
  s ← skip ":" s;
  '(sec, s) ← getnum true s;
  _ ← in_bounds 0 59 sec;
  let '(ns, s) := fraction s in
  s ← skip "Z" s;
  _ ← (if String.eqb s "" then Some tt else None);
  _ ← in_bounds 1 (daysIn mo y) d;
  Some {| year := y; month := mo; day := d; hour := h; minute := mi;
          second := sec; nanosecond := ns; zoneOffset := 0 |}.

End GoTime.

(** *** encoding/xml, as the store uses it

    [xml.NewDecoder(in).Decode(&out)] for [out] of type [plist]: a
    tokenizer, and the decoder that fills the structs from the tokens.  The
    tokenizer covers the documents made of start tags and end tags without
    attributes and of ASCII character data without entity references, which
    are the documents [toXmlFile] writes; on anything else (attributes,
    name space prefixes, comments, processing instructions, entities,
    carriage returns, bytes from 128 on) the result is [NotModelled] rather
    than a guess. *)

Module Xml.
Import GoStrings.

(** The structs of the store that [Decode] fills.  A [[]*key] is a list of
    [key]: the decoder allocates every element it appends. *)
Record key : Type := Key { keyText : string }.
Record data : Type := Data { dataText : string }.
Record date : Type := Date { dateText : string }.
Record integer : Type := Integer { integerText : bool }.

#[warnings="-register-all"]
Inductive dict : Type := Dict {
  ChiData : list data;
  ChiDate : list date;
  ChiDict : option dict;
  ChiInteger : list integer;
  ChiKey : list key;
}.

Record plist : Type := Plist { plistChiDict : option dict }.

Definition emptyDict : dict := Dict [] [] None [] [].

Inductive token : Type :=
| StartElement (name : string)
| EndElement (name : string)
| CharData (s : string)
| SyntaxError
| Unmodelled.

Inductive lex_mode : Type :=
| InText (buf : string)
| TagOpen
| StartName (n : string)
| EndName (n : string)
| Stopped.

(** The bytes of a name without a name space prefix. *)
Definition is_name_start (c : ascii) : bool :=
  is_upper c || is_lower c || Ascii.eqb c "_"%char.
Definition is_name_byte (c : ascii) : bool :=
  is_name_start c || is_digit c || Ascii.eqb c "-"%char || Ascii.eqb c "."%char.

Definition valid_name (n : string) : bool :=
  match n with
  | String c rest => is_name_start c && sforall is_name_byte rest
  | EmptyString => false
  end.

(** Character data the tokenizer hands over unchanged. *)
Definition is_chardata (c : ascii) : bool :=
  let n := N_of_ascii c in
  ((n =? 9) || (n =? 10) || ((32 <=? n) && (n <=? 126)))%N
  && negb (Ascii.eqb c "<"%char) && negb (Ascii.eqb c "&"%char)
  && negb (Ascii.eqb c "]"%char).

Definition snoc (s : string) (c : ascii) : string := s +:+ String c "".

(** No token is produced for empty character data. *)
Definition text_token (buf : string) : list token :=
  match buf with EmptyString => [] | _ => [CharData buf] end.

(** One character: the tokens it completes and the mode after it. *)
Definition lex_step (m : lex_mode) (c : ascii) : list token * lex_mode :=
  match m with
  | InText buf =>
      if Ascii.eqb c "<"%char then (text_token buf, TagOpen)
      else if is_chardata c then ([], InText (snoc buf c))
      else ([Unmodelled], Stopped)
  | TagOpen =>
      if Ascii.eqb c "/"%char then ([], EndName "")
      else if is_name_byte c then ([], StartName (String c ""))
      else ([Unmodelled], Stopped)
  | StartName n =>
      if Ascii.eqb c ">"%char then
        if valid_name n then ([StartElement n], InText "")
        else ([SyntaxError], Stopped)
      else if is_name_byte c then ([], StartName (snoc n c))
      else ([Unmodelled], Stopped)
  | EndName n =>
      if Ascii.eqb c ">"%char then
        if valid_name n then ([EndElement n], InText "")
        else ([SyntaxError], Stopped)
      else if is_name_byte c then ([], EndName (snoc n c))
      else ([Unmodelled], Stopped)
  | Stopped => ([], Stopped)
  end.

(** At the end of the input: pending character data is a token, an open
    tag is an unexpected EOF. *)
Definition lex_finish (m : lex_mode) : list token :=
  match m with
  | InText buf => text_token buf
  | Stopped => []
  | _ => [SyntaxError]
  end.

Fixpoint lex (m : lex_mode) (s : string) : list token :=
  match s with
  | EmptyString => lex_finish m
  | String c s' => let '(out, m') := lex_step m c in out ++ lex m' s'
  end.

Definition tokens (s : string) : list token := lex (InText "") s.

(** The decoder.  Each open element has a frame: the struct being filled
    (for a [*dict] field that is already set, the struct it points to, which
    is filled further), the character data of a [key], [data], [date] or
    [integer] element, or nothing for an element no field matches, which is
    skipped with everything below it. *)
Inductive chars_kind : Type := KData | KDate | KInteger | KKey.

Inductive frame : Type :=
| FPlist (name : string) (p : plist)
| FDict (name : string) (d : dict)
| FChars (name : string) (k : chars_kind) (buf : string)
| FSkip (name : string).

Definition frame_name (f : frame) : string :=
  match f with
  | FPlist n _ | FDict n _ | FChars n _ _ | FSkip n => n
  end.

Inductive dec_state : Type :=
| Prolog
| Open (stack : list frame)
| Done (p : plist)
| Failed (e : error)
| Unknown.

Definition child_of_dict (n : string) (d : dict) : frame :=
  if String.eqb n "data" then FChars n KData ""
  else if String.eqb n "date" then FChars n KDate ""
  else if String.eqb n "dict" then FDict n (default emptyDict (ChiDict d))
  else if String.eqb n "integer" then FChars n KInteger ""
  else if String.eqb n "key" then FChars n KKey ""
  else FSkip n.

Definition open_child (n : string) (parent : frame) : frame :=
  match parent with
  | FPlist _ p =>
      if String.eqb n "dict" then FDict n (default emptyDict (plistChiDict p))
      else FSkip n
  | FDict _ d => child_of_dict n d
  | FChars _ _ _ | FSkip _ => FSkip n
  end.

(** The value of an [integer] element: its field is a [bool]. *)
Definition bool_of_chardata (buf : string) : option bool :=
  match buf with
  | EmptyString => Some false
  | _ => ParseBool (TrimSpace buf)
  end.

(** Storing a closed element in the struct of its parent. *)
Definition close_into (child parent : frame) : option frame :=
  match child, parent with
  | FDict _ d, FPlist n p => Some (FPlist n (Plist (Some d)))
  | FDict _ d, FDict n d0 =>
      Some (FDict n (Dict (ChiData d0) (ChiDate d0) (Some d) (ChiInteger d0) (ChiKey d0)))
  | FChars _ KData buf, FDict n d0 =>
      Some (FDict n (Dict (ChiData d0 ++ [Data buf]) (ChiDate d0) (ChiDict d0)
                          (ChiInteger d0) (ChiKey d0)))
  | FChars _ KDate buf, FDict n d0 =>
      Some (FDict n (Dict (ChiData d0) (ChiDate d0 ++ [Date buf]) (ChiDict d0)
                          (ChiInteger d0) (ChiKey d0)))
  | FChars _ KKey buf, FDict n d0 =>
      Some (FDict n (Dict (ChiData d0) (ChiDate d0) (ChiDict d0)
                          (ChiInteger d0) (ChiKey d0 ++ [Key buf])))
  | FChars _ KInteger buf, FDict n d0 =>
      b ← bool_of_chardata buf;
      Some (FDict n (Dict (ChiData d0) (ChiDate d0) (ChiDict d0)
                          (ChiInteger d0 ++ [Integer b]) (ChiKey d0)))
  | _, _ => Some parent
  end.

Definition syntax_error : error := "XML syntax error".

Definition dec_step (st : dec_state) (t : token) : dec_state :=
  match st, t with
  | (Done _ | Failed _ | Unknown), _ => st
  | _, SyntaxError => Failed syntax_error
  | _, Unmodelled => Unknown
  | Prolog, StartElement n => Open [FPlist n (Plist None)]
  | Prolog, CharData _ => Prolog
  | Prolog, EndElement _ => Failed syntax_error
  | Open [], _ => Failed syntax_error
  | Open (top :: rest), StartElement n => Open (open_child n top :: top :: rest)
  | Open (FChars n k buf :: rest), CharData s => Open (FChars n k (buf +:+ s) :: rest)
  | Open (_ :: _), CharData _ => st
  | Open (top :: rest), EndElement n =>
      if String.eqb n (frame_name top) then
        match top, rest with
        | FPlist _ p, [] => Done p
        | _, parent :: rest' =>
            match close_into top parent with
            | Some parent' => Open (parent' :: rest')
            | None => Failed "strconv.ParseBool: invalid syntax"
            end
        | _, [] => Failed syntax_error
        end
      else Failed syntax_error
  end.

Definition dec_finish (st : dec_state) : outcome plist :=
  match st with
  | Done p => Ok p
  | Failed e => Err e
  | Unknown => NotModelled
  | Prolog => Err "EOF"
  | Open _ => Err "XML syntax error: unexpected EOF"
  end.

(** [xml.NewDecoder(in).Decode(&out)], for [in] holding the bytes [s]. *)
Definition Decode (s : string) : outcome plist :=
  dec_finish (fold_left dec_step (tokens s) Prolog).

End Xml.

(** ** The darwin store *)

Module Store.
Import GoStrings GoTime Xml.

(** *** The machine the store runs on

    The file system is a map from paths to contents.  What the store asks
    of the operating system and of the [security] tool is answered by a
    [Host]: one execution of an operation runs against one host. *)

Record FileInfo : Type := { fiName : string; fiModTime : Time }.

#[export] Instance FileInfo_eq_dec : EqDecision FileInfo.
Proof. solve_decision. Defined.

Record Host : Type := {
  (** [ioutil.TempFile("", prefix)]: the name of the file created *)
  TempFile : string -> result string;
  (** [security trust-settings-export -d file]: the bytes written to the
      file when the tool succeeds *)
  security_trust_settings_export : string -> result string;
  (** [security find-certificate -a -p paths...]: the standard output *)
  security_find_certificate : list string -> result (list byte);
  (** [sudo security trust-settings-import -d file] *)
  security_trust_settings_import : string -> option error;
  (** [user.Current()]: the home directory of the user *)
  user_Current : result string;
  time_Now : Time;
  os_MkdirAll : string -> option error;
  ioutil_ReadDir : string -> result (list FileInfo);
  (** an input/output failure while a file is written *)
  write_failure : string -> option error;
}.

Abbreviation FS := (gmap string string).

Section Darwin.
Context `{CertTools}.
Context (h : Host).

(** [file.SortFileInfos] of [tools/file], which is not among the modelled
    files, is a parameter: it sorts the directory listing in place, and
    that the most recent backup comes last is a hypothesis of the lemmas
    about [Restore]. *)
Context (SortFileInfos : list FileInfo -> list FileInfo).

(** The layout of the timestamps, to which [GoTime.Format] and
    [GoTime.ParseInLocation] are specialised. *)
Definition plistModDateFormat : string := "2006-01-02T15:04:05Z".

Definition systemDirs : list string :=
  ["/System/Library/Keychains/SystemRootCertificates.keychain";
   "/Library/Keychains/System.keychain"].

(** Modelled from the spec: [file.Exists] of [tools/file] is not part of
    the modelled files; it tells whether the path exists on disk. *)
Definition file_Exists (fs : FS) (path : string) : bool :=
  bool_decide (is_Some (fs !! path)).

(** Modelled from the spec: [file.CopyFile] of [tools/file] is not part of
    the modelled files; it copies the source file to the destination and
    returns the error of a failed read or write. *)
Definition file_CopyFile (src dst : string) (fs : FS) : FS * option error :=
  match fs !! src with
  | None => (fs, Some "open: no such file or directory")
  | Some content =>
      match write_failure h dst with
      | Some e => (fs, Some e)
      | None => (<[dst := content]> fs, None)
      end
  end.

(** [os.Remove(name)], its error dropped *)
Definition os_Remove (name : string) (fs : FS) : FS := delete name fs.

(** [ioutil.WriteFile] *)
Definition ioutil_WriteFile (name content : string) (fs : FS) : FS * option error :=
  match write_failure h name with
  | Some e => (fs, Some e)
  | None => (<[name := content]> fs, None)
  end.

(** *** trustItem *)

Record trustItem : Type := {
  sha1Fingerprint : string;
  issuerName : Name;
  modDate : Time;
  serialNumber : list byte;
  kSecTrustSettingsResult : Z;
}.

Definition trustItems := list trustItem.

Definition contains (t : trustItems) (cert : option Certificate) : bool :=
  match cert with
  | None => true
  | Some c =>
      let fp := GetHexSHA1Fingerprint c in
      existsb (fun it => String.eqb fp (sha1Fingerprint it)) t
  end.

Definition equal (t other : trustItem) : bool :=
  String.eqb (sha1Fingerprint t) (sha1Fingerprint other).

(** *** toXmlFile *)

Definition nl : string := String "010" "".

Definition header : string := "<plist><dict><key>trustList</key><dict>".
Definition itemEnd : string := "</dict>".
Definition footer : string :=
  "</dict>" +:+ nl +:+ "  <key>trustVersion</key>" +:+ nl
  +:+ "  <integer>1</integer>" +:+ nl +:+ "</dict></plist>".

(** One turn of the loop of [toXmlFile]: the bytes [inner] of item [it]. *)
Definition item_xml (it : trustItem) : string :=
  let key := "<key>" +:+ ToUpper (sha1Fingerprint it) +:+ "</key>" in
  let rdn := ToRDNSequence (issuerName it) in
  let bs := default [] (asn1_Marshal rdn) in
  let issuer :=
    "<key>issuerName</key><data>" +:+ Base64.EncodeToString bs +:+ "</data>" in
  let modDate :=
    "<key>modDate</key><date>" +:+ Format (modDate it) +:+ "</date>" in
  let serial :=
    "<key>serialNumber</key><data>"
    +:+ Base64.EncodeToString (serialNumber it) +:+ "</data>" in
  let inner := key +:+ "<dict>" in
  let inner := inner +:+ issuer in
  let inner := inner +:+ modDate in
  let inner := inner +:+ serial in
  inner +:+ itemEnd.

(** The bytes [content] that [toXmlFile] writes. *)
Definition toXml (t : trustItems) : string :=
  let out := fold_left (fun out it => out +:+ item_xml it) t "" in
  header +:+ (out +:+ footer).

Definition toXmlFile (t : trustItems) (where_ : string) (fs : FS) : FS * option error :=
  ioutil_WriteFile where_ (toXml t) fs.

(** *** parsePlist and convertToTrustItems *)

Definition parsePlist (input : string) : outcome plist := Xml.Decode input.

(** [r.ReplaceAllString(s, "")] for [r] the expression
    [[^a-zA-Z0-9\+\/=]*]: every character outside the class is removed. *)
Definition in_base64_class (c : ascii) : bool :=
  is_lower c || is_upper c || is_digit c
  || Ascii.eqb c "+"%char || Ascii.eqb c "/"%char || Ascii.eqb c "="%char.
Definition r_ReplaceAllString (s : string) : string := sfilter in_base64_class s.

(** [r2.Replace(s)] for the replacer that deletes tab, line feed, space
    and carriage return. *)
Definition r2_Replace (s : string) : string :=
  sfilter (fun c => negb (Ascii.eqb c "009"%char || Ascii.eqb c "010"%char
                          || Ascii.eqb c " "%char || Ascii.eqb c "013"%char)) s.

(** The body of the loop for one index [i], given the entries it reads:
    [key] is [ChiKey[i/2]], [d1] and [d2] are [ChiData[i]] and
    [ChiData[i+1]], [dt] is [ChiDate[i/2]].  The item starts as
    [trustItem{}]: the issuer name stays empty and the time zero when
    their texts do not decode. *)
Definition convert_item (k : key) (d1 d2 : data) (dt : date) : trustItem :=
  let s1 := r2_Replace (r_ReplaceAllString (dataText d1)) in
  let s2 := r2_Replace (r_ReplaceAllString (dataText d2)) in
  let bs1 := fst (Base64.DecodeString s1) in
  let bs2 := fst (Base64.DecodeString s2) in
  let issuer :=
    match asn1_Unmarshal bs1 with
    | Some rdn => FillFromRDNSequence rdn
    | None => emptyName
    end in
  let t :=
    match ParseInLocation (dateText dt) with
    | Some t => t
    | None => zeroTime
    end in
  {| sha1Fingerprint := ToLower (keyText k);
     issuerName := issuer;
     modDate := t;
     serialNumber := bs2;
     kSecTrustSettingsResult := 0 |}.

(** The loop [for i := 0; i < max; i += 2]: [rest] is what is left of
    [ChiData] from index [i] on and [half] is [i/2].  An index that is out
    of range panics. *)
Fixpoint convert_loop (keys : list key) (dates : list date)
    (rest : list data) (half : nat) (out : list trustItem)
  : outcome trustItems :=
  match rest with
  | [] => Ok out
  | d1 :: rest1 =>
      match keys !! half with
      | None => Panic index_out_of_range
      | Some k =>
          match rest1 with
          | [] => Panic index_out_of_range
          | d2 :: rest2 =>
              match dates !! half with
              | None => Panic index_out_of_range
              | Some dt =>
                  convert_loop keys dates rest2 (S half)
                    (out ++ [convert_item k d1 d2 dt])
              end
          end
      end
  end.

(** [p.ChiDict.ChiDict.ChiDict] is read without a nil check at any of the
    three levels. *)
Definition convertToTrustItems (p : plist) : outcome trustItems :=
  match plistChiDict p with
  | None => Panic nil_dereference
  | Some outer =>
      match ChiDict outer with
      | None => Panic nil_dereference
      | Some inner =>
          match ChiDict inner with
          | None => Panic nil_dereference
          | Some innermost =>
              convert_loop (ChiKey inner) (ChiDate innermost)
                (ChiData innermost) 0 []
          end
      end
  end.

(** Reading a snapshot is [parsePlist] followed by [convertToTrustItems],
    as in [getCertsWithTrustPolicy]. *)
Definition ParseSnapshot (input : string) : outcome trustItems :=
  let* plist := parsePlist input in
  convertToTrustItems plist.

(** The items of the entries taken in step: one key, two data and one
    date per item.  This is the result of the loop when no index is out of
    range. *)
Fixpoint items_of (keys : list key) (dates : list date) (datas : list data)
    {struct datas} : list trustItem :=
  match datas, keys, dates with
  | d1 :: d2 :: datas', k :: keys', dt :: dates' =>
      convert_item k d1 d2 dt :: items_of keys' dates' datas'
  | _, _, _ => []
  end.

(** The issuer name [convert_item] reads from the first data entry of an
    item, and an item with another issuer name. *)
Definition issuer_of (d : data) : Name :=
  issuerName (convert_item (Key "") d (Data "") (Date "")).

Definition set_issuer (n : Name) (it : trustItem) : trustItem :=
  {| sha1Fingerprint := sha1Fingerprint it; issuerName := n;
     modDate := modDate it; serialNumber := serialNumber it;
     kSecTrustSettingsResult := kSecTrustSettingsResult it |}.

(** *** Export, backup, list *)

(** The two results of [trustSettingsExport]: the file (nil or its name)
    and the error.  The temporary file exists from [TempFile] on. *)
Definition trustSettingsExport (fs : FS) : FS * (option string * option error) :=
  match TempFile h "trust-settings" with
  | Failure e => (fs, (None, Some e))
  | Success name =>
      let fs := <[name := ""]> fs in
      match security_trust_settings_export h name with
      | Failure e => (fs, (None, Some e))
      | Success content => (<[name := content]> fs, (Some name, None))
      end
  end.

Definition getCertManageDir : result string :=
  match user_Current h with
  | Failure e => Failure e
  | Success home => Success (filepath_Join home "/Library/cert-manage")
  end.

(** The name [Backup] gives the copy. *)
Definition backup_filename : string :=
  "trust-backup-" +:+ appendInt (Unix (time_Now h)) 1 +:+ ".xml".

Definition Backup (fs : FS) : FS * outcome unit :=
  let '(fs, (fd, err)) := trustSettingsExport fs in
  (* if fd != nil { defer os.Remove(fd.Name()) } *)
  let deferred (fs : FS) : FS :=
    match fd with Some name => os_Remove name fs | None => fs end in
  match err with
  | Some e => (deferred fs, Err e)
  | None =>
      match getCertManageDir with
      | Failure e => (deferred fs, Err e)
      | Success outDir =>
          let out := filepath_Join outDir backup_filename in
          match os_MkdirAll h outDir with
          | Some e => (deferred fs, Err e)
          | None =>
              match fd with
              | None => (deferred fs, Panic nil_dereference)
              | Some name =>
                  let '(fs, err) := file_CopyFile name out fs in
                  (deferred fs, match err with Some e => Err e | None => Ok tt end)
              end
          end
      end
  end.

(** The loop of [readInstalledCerts]: [res] only ever receives non-nil
    certificates, so it is a list of certificates. *)
Definition add_installed (res : list Certificate) (c : option Certificate)
  : list Certificate :=
  match c with
  | None => res
  | Some c =>
      if existsb (fun r => bool_decide (Signature c = Signature r)) res
      then res else res ++ [c]
  end.

(** The certificates kept from the entries [cs] that [pem.Parse] returns. *)
Definition installed_certs (cs : list (option Certificate)) : list Certificate :=
  fold_left add_installed cs [].

Definition readInstalledCerts (paths : list string)
  : result (list (option Certificate)) :=
  match security_find_certificate h paths with
  | Failure e => Failure e
  | Success b =>
      match pem_Parse b with
      | Failure e => Failure e
      | Success cs => Success (Some <$> installed_certs cs)
      end
  end.

Definition getCertsWithTrustPolicy (fs : FS) : FS * outcome trustItems :=
  let '(fs, (fd, err)) := trustSettingsExport fs in
  (* defer os.Remove(fd.Name()): fd.Name() is evaluated here *)
  match fd with
  | None => (fs, Panic nil_dereference)
  | Some name =>
      let deferred (fs : FS) : FS := os_Remove name fs in
      match err with
      | Some e => (deferred fs, Err e)
      | None =>
          (deferred fs,
           let* plist := parsePlist (default "" (fs !! name)) in
           convertToTrustItems plist)
      end
  end.

(** The loop of [List] over [installed]. *)
Definition keep_trusted (t : trustItems) (installed : list (option Certificate))
  : list (option Certificate) :=
  fold_left
    (fun kept c =>
       match c with
       | None => kept
       | Some _ => if contains t c then kept ++ [c] else kept
       end)
    installed [].

Definition List (fs : FS) : FS * outcome (list (option Certificate)) :=
  match readInstalledCerts systemDirs with
  | Failure e => (fs, Err e)
  | Success installed =>
      let '(fs, r) := getCertsWithTrustPolicy fs in
      (fs, let* trustItems := r in Ok (keep_trusted trustItems installed))
  end.

(** *** Restore and Remove *)

Definition getLatestBackupFile : string * option error :=
  match getCertManageDir with
  | Failure e => ("", Some e)
  | Success dir =>
      match ioutil_ReadDir h dir with
      | Failure e => ("", Some e)
      | Success fis =>
          if bool_decide (length fis = 0%nat) then ("", None)
          else
            (* get largest: fis[len(fis)-1] after the sort in place *)
            match last (SortFileInfos fis) with
            | Some latest => (filepath_Join dir (fiName latest), None)
            | None => ("", None)
            end
      end
  end.

(** The file [Restore] settles on: the one given, or else the latest
    backup, errors on the way to it being dropped. *)
Definition restore_point (where_ : string) : string :=
  if String.eqb where_ "" then fst getLatestBackupFile else where_.

Definition no_backup_found : error :=
  "No backup file found and -file not specified".
Definition restore_file_missing : error := "Restore file doesn't exist".

Definition Restore (where_ : string) (fs : FS) : outcome unit :=
  let where_ := restore_point where_ in
  if String.eqb where_ "" then Err no_backup_found
  else if negb (file_Exists fs where_) then Err restore_file_missing
  else
    match security_trust_settings_import h where_ with
    | Some e => Err e
    | None => Ok tt
    end.

(** [big.Int.Bytes]: the absolute value, big-endian, without leading
    zero bytes. *)
Fixpoint be_bytes (fuel : nat) (n : N) (acc : list byte) : list byte :=
  match fuel with
  | O => acc
  | S fuel' =>
      if (n =? 0)%N then acc
      else be_bytes fuel' (n / 256)%N (Base64.byte_of_N (n mod 256)%N :: acc)
  end.

Definition big_Bytes (x : Z) : list byte :=
  be_bytes (S (N.to_nat (N.log2 (Z.abs_N x)))) (Z.abs_N x) [].

Definition trustItemFromCertificate (cert : Certificate) : trustItem :=
  {| sha1Fingerprint := GetHexSHA1Fingerprint cert;
     issuerName := Issuer cert;
     modDate := time_Now h;
     serialNumber := big_Bytes (SerialNumber cert);
     kSecTrustSettingsResult := 0 |}.

(** [wh] is the method [Matches] of the [whitelist.Whitelist] given. *)
Definition Remove (wh : option Certificate -> bool) (fs : FS) : FS * outcome unit :=
  let '(fs, r) := List fs in
  match r with
  | Err e => (fs, Err e)
  | Panic m => (fs, Panic m)
  | NotModelled => (fs, NotModelled)
  | Ok certs =>
      let kept := filter (fun c => wh c = true) certs in
      let trustItems := omap (fun c => trustItemFromCertificate <$> c) kept in
      match TempFile h "cert-manage" with
      | Failure e =>
          (* defer os.Remove(f.Name()) with f nil *)
          (fs, Panic nil_dereference)
      | Success name =>
          let fs := <[name := ""]> fs in
          let '(fs, err) := toXmlFile trustItems name fs in
          match err with
          | Some e => (os_Remove name fs, Err e)
          | None => (os_Remove name fs, Restore name fs)
          end
      end
  end.

(** What [Restore] returns once it has run the import tool on [file]. *)
Definition import_outcome (file : string) : outcome unit :=
  match security_trust_settings_import h file with
  | Some e => Err e
  | None => Ok tt
  end.

(** [big.Int.SetBytes]: the number the bytes stand for, big-endian and
    unsigned. *)
Definition big_SetBytes (bs : list byte) : Z :=
  fold_left (fun acc b => acc * 256 + Z.of_N (Byte.to_N b)) bs 0.

(** [t.Serial()] *)
Definition Serial (t : trustItem) : Z := big_SetBytes (serialNumber t).

End Darwin.
End Store.

(** ** What the codec writes and reads back

    The notions used to state the properties of [toXmlFile] followed by
    [parsePlist] and [convertToTrustItems]. *)

Module Codec.
Import GoStrings Base64 GoTime Xml Store.

(** Lower-case hexadecimal digits, the characters of a fingerprint. *)
Definition is_lower_hex (c : ascii) : bool := is_digit c || in_range 97 102 c.

(** The text of [EncodeToString] is made of characters of the class that
    the expression of [convertToTrustItems] keeps, which are character data
    and no line breaks. *)
Definition base64_text (c : ascii) : bool :=
  in_base64_class c && is_chardata c && negb (is_newline c).

(** The number a string of decimal digits stands for, after [acc]. *)
Fixpoint decimal_value (s : string) (acc : N) : N :=
  match s with
  | EmptyString => acc
  | String c s' => decimal_value s' (acc * 10 + (N_of_ascii c - 48))%N
  end.

(** The digits of a field of the timestamp. *)
Definition two_digits (x : Z) : string :=
  String (digit_char (Z.to_N x / 10)) (String (digit_char (Z.to_N x)) "").

Definition four_digits (x : Z) : string :=
  String (digit_char (Z.to_N x / 1000)) (String (digit_char (Z.to_N x / 100))
    (String (digit_char (Z.to_N x / 10)) (String (digit_char (Z.to_N x)) ""))).

(** A time whose fields are those of a date and a time of day, in a year
    of four digits. *)
Record valid_time (t : Time) : Prop := {
  valid_year : 0 <= year t <= 9999;
  valid_month : 1 <= month t <= 12;
  valid_day : 1 <= day t <= daysIn (month t) (year t);
  valid_hour : 0 <= hour t <= 23;
  valid_minute : 0 <= minute t <= 59;
  valid_second : 0 <= second t <= 59;
}.

(** What is left of a time in the timestamp: the calendar fields, read
    back as UTC. *)
Definition as_written (t : Time) : Time :=
  {| year := year t; month := month t; day := day t; hour := hour t;
     minute := minute t; second := second t; nanosecond := 0;
     zoneOffset := 0 |}.

(** The tokens of one item: a key with the fingerprint [fp], and a
    dictionary with the issuer [b1], the date [dt] and the serial number
    [b2]. *)
Definition item_tokens (fp b1 dt b2 : string) : list token :=
  [StartElement "key"] ++ text_token fp
  ++ [EndElement "key"; StartElement "dict";
      StartElement "key"; CharData "issuerName"; EndElement "key";
      StartElement "data"] ++ text_token b1
  ++ [EndElement "data";
      StartElement "key"; CharData "modDate"; EndElement "key";
      StartElement "date"] ++ text_token dt
  ++ [EndElement "date";
      StartElement "key"; CharData "serialNumber"; EndElement "key";
      StartElement "data"] ++ text_token b2
  ++ [EndElement "data"; EndElement "dict"].

(** The tokens completed by a prefix of the input, and the mode after
    it. *)
Fixpoint lex_prefix (m : lex_mode) (p : string) : list token * lex_mode :=
  match p with
  | EmptyString => ([], m)
  | String c p' =>
      let '(out, m') := lex_step m c in
      let '(out', m'') := lex_prefix m' p' in
      (out ++ out', m'')
  end.

(** The dictionary of the trust list after one more item: the fingerprint
    joins its keys, and the two data entries, the date and the three keys
    of the item join the arrays of the one dictionary below it, which is
    created by the first item and filled further by the others. *)
Definition add_item (fp b1 dt b2 : string) (d : dict) : dict :=
  let m := default emptyDict (ChiDict d) in
  Dict (ChiData d) (ChiDate d)
    (Some (Dict ((ChiData m ++ [Data b1]) ++ [Data b2])
                (ChiDate m ++ [Date dt])
                (ChiDict m) (ChiInteger m)
                (((ChiKey m ++ [Key "issuerName"]) ++ [Key "modDate"])
                 ++ [Key "serialNumber"])))
    (ChiInteger d) (ChiKey d ++ [Key fp]).

Section Codec.
Context `{CertTools}.

(** The base64 texts [toXmlFile] writes for an item. *)
Definition written_issuer (it : trustItem) : string :=
  Base64.EncodeToString (default [] (asn1_Marshal (ToRDNSequence (issuerName it)))).
Definition written_serial (it : trustItem) : string :=
  Base64.EncodeToString (serialNumber it).

Fixpoint concat_items (t : trustItems) : string :=
  match t with
  | [] => ""
  | it :: t' => item_xml it +:+ concat_items t'
  end.

Definition add_items (t : trustItems) (d : dict) : dict :=
  fold_left
    (fun d it =>
       add_item (ToUpper (sha1Fingerprint it)) (written_issuer it)
         (Format (modDate it)) (written_serial it) d)
    t d.

(** The texts of an item are character data when its fingerprint is made
    of hexadecimal digits and its date is valid. *)
Definition plain_item (it : trustItem) : Prop :=
  sforall is_lower_hex (sha1Fingerprint it) = true /\ valid_time (modDate it).

(** The arrays after all items. *)
Definition written_keys (t : trustItems) : list key :=
  (fun it => Key (ToUpper (sha1Fingerprint it))) <$> t.
Definition written_dates (t : trustItems) : list date :=
  (fun it => Date (Format (modDate it))) <$> t.
Definition written_data (t : trustItems) : list data :=
  t ≫= fun it => [Data (written_issuer it); Data (written_serial it)].
Definition written_inner_keys (t : trustItems) : list key :=
  t ≫= fun _ => [Key "issuerName"; Key "modDate"; Key "serialNumber"].

(** A well-formed record: the fingerprint is lower-case hexadecimal text,
    the issuer name is one that its ASN.1 encoding gives back, and the
    modification time is a valid date and time of day in a year of four
    digits. *)
Record well_formed (it : trustItem) : Prop := {
  wf_fingerprint : sforall is_lower_hex (sha1Fingerprint it) = true;
  wf_issuer :
    exists bs rdn,
      asn1_Marshal (ToRDNSequence (issuerName it)) = Some bs
      /\ asn1_Unmarshal bs = Some rdn
      /\ FillFromRDNSequence rdn = issuerName it;
  wf_modDate : valid_time (modDate it);
}.

(** What is read back for a record: the record, with the calendar fields
    of its time taken as UTC and without the fraction of the second. *)
Definition read_back (it : trustItem) : trustItem :=
  {| sha1Fingerprint := sha1Fingerprint it;
     issuerName := issuerName it;
     modDate := as_written (modDate it);
     serialNumber := serialNumber it;
     kSecTrustSettingsResult := 0 |}.

End Codec.
End Codec.

(** ** cmd/print.go: the order of the rows of the table *)

Module Print.
Import GoStrings.

(** [iStringSlice], a [[]string] with the three methods of
    [sort.Interface].  An index is a position in the slice; one past its
    end panics. *)
Definition iStringSlice := list string.



Definition Swap (p : iStringSlice) (i j : nat) : outcome iStringSlice :=
  match p !! i, p !! j with
  | Some a, Some b => Ok (<[j := a]> (<[i := b]> p))
  | _, _ => Panic index_out_of_range
  end.

End Print.

(** ** The fetcher: the names of the certificate sources *)

Module Fetcher.
Import GoStrings.

(** The functions of [fetch/ca] that [main] calls. *)
Inductive source : Type :=
| Android | Apple | CT | Darwin | Digicert | Google
| Java | Linux | Microsoft | NSS | Visa | Windows.

(** The [switch] on [strings.TrimSpace(strings.ToLower(who))]: the source
    a command line argument names, if any; there is no default case. *)
Definition source_of (who : string) : option source :=
  let name := TrimSpace (ToLower who) in
  if String.eqb name "android" then Some Android
  else if String.eqb name "apple" then Some Apple
  else if String.eqb name "ct" then Some CT
  else if String.eqb name "darwin" then Some Darwin
  else if String.eqb name "digicert" then Some Digicert
  else if String.eqb name "google" then Some Google
  else if String.eqb name "java" then Some Java
  else if String.eqb name "linux" then Some Linux
  else if String.eqb name "microsoft" then Some Microsoft
  else if String.eqb name "nss" then Some NSS
  else if String.eqb name "visa" then Some Visa
  else if String.eqb name "windows" then Some Windows
  else None.

(** [set(b)]: [b != nil && *b] *)
Definition set (b : option bool) : bool :=
  match b with
  | Some v => v
  | None => false
  end.

(** A string of ASCII characters, on which the case mappings and
    [TrimSpace] of [GoStrings] are those of Go. *)
Definition is_ascii (c : ascii) : bool := in_range 0 127 c.

End Fetcher.

(** ** A small instance of the libraries

    Enough of [asn1], [pkix], [filepath] and of the certificate tools to run
    the store on concrete inputs: a name is its common name, encoded as a
    tag, a length and the bytes of the name. *)

Module Example.
Import GoStrings GoTime.

Definition marshal_name (n : string) : option (list byte) :=
  let bs := list_byte_of_string n in
  if (length bs <? 128)%nat
  then Some (x30 :: Base64.byte_of_N (N.of_nat (length bs)) :: bs)
  else None.

Definition unmarshal_name (bs : list byte) : option string :=
  match bs with
  | x30 :: len :: rest =>
      let n := N.to_nat (Byte.to_N len) in
      if (n <=? length rest)%nat
      then Some (string_of_list_byte (take n rest))
      else None
  | _ => None
  end.

Definition join (a b : string) : string :=
  match b with
  | String "/" _ => a +:+ b
  | _ => a +:+ "/" +:+ b
  end.

#[export] Instance lib : GoLib := {|
  Name := string;
  emptyName := "";
  RDNSequence := string;
  ToRDNSequence := id;
  FillFromRDNSequence := id;
  asn1_Marshal := marshal_name;
  asn1_Unmarshal := unmarshal_name;
  filepath_Join := join;
|}.

Definition hex_digit (n : N) : ascii :=
  if (n <? 10)%N then ascii_of_N (48 + n) else ascii_of_N (87 + n).

Definition hex (bs : list byte) : string :=
  string_of_list_ascii
    (bs ≫= fun b => [hex_digit (Byte.to_N b / 16); hex_digit (Byte.to_N b mod 16)]).

(** The fingerprint is the hexadecimal text of the raw bytes, and a PEM
    bundle has one certificate per byte, a zero byte being a block that
    does not parse. *)
Definition mkcert (b : byte) (issuer : string) (serial : Z) : Certificate :=
  {| Raw := [b]; Signature := [b]; Issuer := issuer; SerialNumber := serial |}.

#[export] Instance tools : CertTools := {|
  GetHexSHA1Fingerprint := fun c => hex (Raw c);
  pem_Parse := fun bs =>
    Success ((fun b => if bool_decide (b = x00) then None
                       else Some (mkcert b "Example CA" 1)) <$> bs);
|}.

(** Whitelist items: a fingerprint, or the common name of the issuer. *)
Inductive item : Type :=
| HexFingerprint (fp : string)
| IssuerCommonName (cn : string).

Definition item_matches (w : item) (c : Certificate) : bool :=
  match w with
  | HexFingerprint fp => String.eqb fp (GetHexSHA1Fingerprint c)
  | IssuerCommonName cn => String.eqb cn (Issuer c)
  end.


Import Xml Store.

(** A host with four entries in the dump (one of them nil, one repeated)
    and a trust policy for the certificate of fingerprint [01]. *)
Definition policy01 : trustItems :=
  [{| sha1Fingerprint := "01"; issuerName := "Example CA"; modDate := zeroTime;
      serialNumber := [x01]; kSecTrustSettingsResult := 0 |}].

Definition host01 : Host := {|
  TempFile := fun prefix => Success ("/tmp/" +:+ prefix +:+ "042");
  security_trust_settings_export := fun _ => Success (toXml policy01);
  security_find_certificate := fun _ => Success [x00; x01; x02; x01];
  security_trust_settings_import := fun _ => None;
  user_Current := Success "/Users/ada";
  time_Now := zeroTime;
  os_MkdirAll := fun _ => None;
  ioutil_ReadDir := fun _ => Success [];
  write_failure := fun _ => None;
|}.


(** The same machine with an export tool that fails. *)
Definition host_export_fails : Host := {|
  TempFile := TempFile host01;
  security_trust_settings_export := fun _ => Failure "exit status 1";
  security_find_certificate := security_find_certificate host01;
  security_trust_settings_import := security_trust_settings_import host01;
  user_Current := user_Current host01;
  time_Now := time_Now host01;
  os_MkdirAll := os_MkdirAll host01;
  ioutil_ReadDir := ioutil_ReadDir host01;
  write_failure := write_failure host01;
|}.

(** Three backups, taken one second after the other. *)
Definition at_second (s : Z) : Time :=
  {| year := 2017; month := 10; day := 25; hour := 20; minute := 21;
     second := s; nanosecond := 0; zoneOffset := 0 |}.

Definition backup1 : FileInfo :=
  {| fiName := "trust-backup-1508962905.xml"; fiModTime := at_second 45 |}.
Definition backup2 : FileInfo :=
  {| fiName := "trust-backup-1508962906.xml"; fiModTime := at_second 46 |}.
Definition backup3 : FileInfo :=
  {| fiName := "trust-backup-1508962907.xml"; fiModTime := at_second 47 |}.

Definition host_three_backups : Host := {|
  TempFile := TempFile host01;
  security_trust_settings_export := security_trust_settings_export host01;
  security_find_certificate := security_find_certificate host01;
  security_trust_settings_import := security_trust_settings_import host01;
  user_Current := user_Current host01;
  time_Now := time_Now host01;
  os_MkdirAll := os_MkdirAll host01;
  ioutil_ReadDir := fun _ => Success [backup3; backup1; backup2];
  write_failure := write_failure host01;
|}.

(** A file is older than another when it was not modified after it. *)
Definition not_after (f g : FileInfo) : Prop :=
  Unix (fiModTime f) <= Unix (fiModTime g).

#[export] Instance not_after_dec : RelDecision not_after.
Proof. intros f g. unfold not_after. apply _. Defined.

Definition sort_by_time : list FileInfo -> list FileInfo :=
  merge_sort not_after.


(** Documents without the nested dictionaries, with one data entry, with
    two data entries and no date, and with two records of which the first
    has an issuer that is not base64 text. *)
Definition doc_no_dict : string := "<plist></plist>".

Definition doc_no_outer_dict : string :=
  "<plist><key>trustList</key><dict><key>01</key><dict>"
  +:+ "<key>issuerName</key><data>MApFeGFtcGxlIENB</data>"
  +:+ "<key>modDate</key><date>2017-10-25T20:21:45Z</date>"
  +:+ "<key>serialNumber</key><data>AQ==</data></dict></dict>"
  +:+ "<key>trustVersion</key><integer>1</integer></plist>".

Definition doc_odd_data : string :=
  "<plist><dict><dict><key>01</key><dict><data>AQ==</data>"
  +:+ "<date>2017-10-25T20:21:45Z</date></dict></dict></dict></plist>".

Definition doc_no_date : string :=
  "<plist><dict><dict><key>01</key><dict><data>AQ==</data>"
  +:+ "<data>AQ==</data></dict></dict></dict></plist>".

Definition doc_corrupt_issuer : string :=
  "<plist><dict><key>trustList</key><dict>"
  +:+ "<key>01</key><dict>"
  +:+ "<key>issuerName</key><data>!!not base64!!</data>"
  +:+ "<key>modDate</key><date>2017-10-25T20:21:45Z</date>"
  +:+ "<key>serialNumber</key><data>AQ==</data></dict>"
  +:+ "<key>02</key><dict>"
  +:+ "<key>issuerName</key><data>MApFeGFtcGxlIENB</data>"
  +:+ "<key>modDate</key><date>2017-10-25T20:21:46Z</date>"
  +:+ "<key>serialNumber</key><data>Ag==</data></dict>"
  +:+ "</dict><key>trustVersion</key><integer>1</integer></dict></plist>".

(** The two records of the intact document. *)
Definition record01 : trustItem :=
  {| sha1Fingerprint := "01"; issuerName := "Example CA";
     modDate := at_second 45; serialNumber := [x01];
     kSecTrustSettingsResult := 0 |}.
Definition record02 : trustItem :=
  {| sha1Fingerprint := "02"; issuerName := "Example CA";
     modDate := at_second 46; serialNumber := [x02];
     kSecTrustSettingsResult := 0 |}.

(** A record stamped in a location one hour east of UTC. *)
Definition local_time : Time :=
  {| year := 2017; month := 10; day := 25; hour := 21; minute := 21;
     second := 45; nanosecond := 0; zoneOffset := 3600 |}.
Definition record_local : trustItem :=
  {| sha1Fingerprint := "01"; issuerName := "Example CA";
     modDate := local_time; serialNumber := [x01];
     kSecTrustSettingsResult := 0 |}.

Definition host_exporting (content : string) : Host := {|
  TempFile := TempFile host01;
  security_trust_settings_export := fun _ => Success content;
  security_find_certificate := security_find_certificate host01;
  security_trust_settings_import := security_trust_settings_import host01;
  user_Current := user_Current host01;
  time_Now := time_Now host01;
  os_MkdirAll := os_MkdirAll host01;
  ioutil_ReadDir := ioutil_ReadDir host01;
  write_failure := write_failure host01;
|}.


(** The [plist] of a snapshot of two records: the dictionary of the
    records, the dictionary of the trust list above it and the outermost
    one. *)
Definition dict_records : dict :=
  Dict [Data "MApFeGFtcGxlIENB"; Data "AQ==";
        Data "MApFeGFtcGxlIENB"; Data "Ag=="]
       [Date "2017-10-25T20:21:45Z"; Date "2017-10-25T20:21:46Z"]
       None []
       [Key "issuerName"; Key "modDate"; Key "serialNumber";
        Key "issuerName"; Key "modDate"; Key "serialNumber"].

Definition dict_trust_list : dict :=
  Dict [] [] (Some dict_records) [] [Key "01"; Key "02"].

Definition dict_outermost : dict :=
  Dict [] [] (Some dict_trust_list) [Integer true]
       [Key "trustList"; Key "trustVersion"].

Definition plist_two_records : plist := Plist (Some dict_outermost).

(** A disk with one file that is none of the store's, and a machine on
    which only the temporary file of the export can be created. *)
Definition disk_example : FS := {[ "/etc/hosts" := "127.0.0.1 localhost" ]}.

Definition host_one_temp_file : Host := {|
  TempFile := fun prefix =>
    if String.eqb prefix "trust-settings" then TempFile host01 prefix
    else Failure "no space left on device";
  security_trust_settings_export := security_trust_settings_export host01;
  security_find_certificate := security_find_certificate host01;
  security_trust_settings_import := security_trust_settings_import host01;
  user_Current := user_Current host01;
  time_Now := time_Now host01;
  os_MkdirAll := os_MkdirAll host01;
  ioutil_ReadDir := ioutil_ReadDir host01;
  write_failure := write_failure host01;
|}.

End Example.

(** * Properties *)

(** ** Keep *)

Module KeepFacts.
Import Certs.

Section Keep.
Context `{CertTools}.
Context {WhitelistItem : Type} (Matches : WhitelistItem -> Certificate -> bool).

Abbreviation Keep := (Keep Matches).
Abbreviation matches_of := (matches_of Matches).

Lemma inner_loop_app inc whitelisted keep :
  fold_left (keep_step Matches inc) whitelisted keep
  = keep ++ matches_of inc whitelisted.
Proof.
  revert keep. induction whitelisted as [|wh whs IH]; intros keep; simpl.
  - destruct inc; simpl; by rewrite app_nil_r.
  - rewrite IH. destruct inc as [c|]; simpl; [|done].
    rewrite filter_cons. destruct (Matches wh c) eqn:E.
    + rewrite decide_True by done. simpl. by rewrite <- app_assoc.
    + rewrite decide_False by (by intros ?). done.
Qed.

Lemma outer_loop_app incoming whitelisted keep :
  fold_left (fun keep inc => fold_left (keep_step Matches inc) whitelisted keep)
    incoming keep
  = keep ++ (incoming ≫= fun inc => matches_of inc whitelisted).
Proof.
  revert keep. induction incoming as [|inc incs IH]; intros keep; simpl.
  - by rewrite app_nil_r.
  - rewrite IH, inner_loop_app. by rewrite <- app_assoc.
Qed.

Lemma Keep_bind incoming whitelisted :
  Keep incoming whitelisted
  = incoming ≫= fun inc => matches_of inc whitelisted.
Proof. unfold Keep. by rewrite outer_loop_app. Qed.

Lemma elem_of_matches_of x inc whitelisted :
  x ∈ matches_of inc whitelisted <->
  exists c wh, x = Some c /\ inc = Some c /\ wh ∈ whitelisted /\ Matches wh c = true.
Proof.
  destruct inc as [c|]; simpl.
  - rewrite list_elem_of_fmap. split.
    + intros (wh & -> & Hwh). apply list_elem_of_filter in Hwh as [Hm Hwh].
      by exists c, wh.
    + intros (c' & wh & -> & [= ->] & Hwh & Hm).
      exists wh. split; [done|]. by apply list_elem_of_filter.
  - split; [by intros ?%elem_of_nil|]. by intros (? & ? & _ & ? & _).
Qed.

Lemma elem_of_Keep x incoming whitelisted :
  x ∈ Keep incoming whitelisted <->
  exists c wh, x = Some c /\ Some c ∈ incoming /\ wh ∈ whitelisted /\ Matches wh c = true.
Proof.
  rewrite Keep_bind, list_elem_of_bind. split.
  - intros (inc & Hx & Hinc).
    apply elem_of_matches_of in Hx as (c & wh & -> & -> & Hwh & Hm).
    by exists c, wh.
  - intros (c & wh & -> & Hinc & Hwh & Hm).
    exists (Some c). split; [|done].
    apply elem_of_matches_of. by exists c, wh.
Qed.

(** C7. With an empty whitelist, [Keep] returns an empty result for every
    non-empty list of certificates. *)
Theorem Keep_empty_whitelist (certs : list (option Certificate)) :
  certs ≠ [] -> Keep certs [] = [].
Proof.
  intros _. rewrite Keep_bind.
  induction certs as [|inc certs IH]; [done|].
  rewrite bind_cons, IH. by destruct inc.
Qed.

(** C8. Applying the same whitelist a second time changes nothing: the
    certificates of [Keep (Keep certs wl) wl] are those of [Keep certs wl],
    as sets (neither the order nor the number of copies counts). *)
Theorem Keep_idempotent (certs : list (option Certificate))
    (wl : list WhitelistItem) :
  forall x, x ∈ Keep (Keep certs wl) wl <-> x ∈ Keep certs wl.
Proof.
  intros x. split.
  - intros (c & wh & -> & Hin & _)%elem_of_Keep. done.
  - intros Hx. pose proof Hx as (c & wh & -> & Hin & Hwh & Hm)%elem_of_Keep.
    apply elem_of_Keep. by exists c, wh.
Qed.

(** C10. Every element of the output of [Keep] is a non-nil pointer that
    occurs in the input and matches at least one whitelist item; every
    non-nil input certificate that matches at least one whitelist item
    occurs in the output; the output holds no nil certificate. *)
Theorem Keep_characterization (certs : list (option Certificate))
    (wl : list WhitelistItem) :
  (forall x, x ∈ Keep certs wl ->
     exists c, x = Some c /\ Some c ∈ certs
               /\ exists wh, wh ∈ wl /\ Matches wh c = true)
  /\ (forall c wh, Some c ∈ certs -> wh ∈ wl -> Matches wh c = true ->
        Some c ∈ Keep certs wl)
  /\ None ∉ Keep certs wl.
Proof.
  split; [|split].
  - intros x (c & wh & -> & Hin & Hwh & Hm)%elem_of_Keep.
    exists c. repeat split; [done|]. by exists wh.
  - intros c wh Hin Hwh Hm. apply elem_of_Keep. by exists c, wh.
  - by intros (c & wh & [=] & _)%elem_of_Keep.
Qed.

(** C2 (the code departs from the claim). A certificate that two whitelist
    items match is appended once for each of them: its fingerprint is
    twice in the output of [Keep]. *)
Theorem Keep_appends_once_per_matching_item (c : Certificate)
    (w1 w2 : WhitelistItem) :
  Matches w1 c = true -> Matches w2 c = true ->
  Keep [Some c] [w1; w2] = [Some c; Some c]
  /\ ~ NoDup (fingerprints (Keep [Some c] [w1; w2])).
Proof.
  intros H1 H2.
  assert (Keep [Some c] [w1; w2] = [Some c; Some c]) as ->.
  { unfold Certs.Keep. simpl. by rewrite H1, H2. }
  split; [done|]. simpl.
  intros Hnd. apply NoDup_cons in Hnd as [Hnotin _].
  apply Hnotin. by left.
Qed.

End Keep.

Import Example.

Lemma Keep_empty_whitelist_witness :
  let certs := [Some (Example.mkcert x01 "Example CA" 1); None] in
  certs ≠ [] /\ Certs.Keep Example.item_matches certs [] = [].
Proof.
  split; [done|]. by apply Keep_empty_whitelist.
Defined.

Lemma Keep_appends_once_per_matching_item_witness :
  let c := Example.mkcert x01 "Example CA" 1 in
  let w1 := Example.HexFingerprint "01" in
  let w2 := Example.IssuerCommonName "Example CA" in
  Example.item_matches w1 c = true /\ Example.item_matches w2 c = true
  /\ Certs.Keep Example.item_matches [Some c] [w1; w2] = [Some c; Some c]
  /\ ~ NoDup (Certs.fingerprints (Certs.Keep Example.item_matches [Some c] [w1; w2])).
Proof.
  split; [reflexivity|]. split; [reflexivity|].
  apply Keep_appends_once_per_matching_item; reflexivity.
Defined.

End KeepFacts.

(** ** List *)

Module ListFacts.
Import GoStrings GoTime Xml Store.

Section List.
Context `{CertTools}.
Context (h : Host).

Lemma add_installed_sub res c x :
  x ∈ res -> x ∈ add_installed res c.
Proof.
  intros Hx. destruct c as [c|]; simpl; [|done].
  destruct (existsb _ res); [done|]. apply elem_of_app. by left.
Qed.

Lemma fold_add_installed_sub cs res x :
  x ∈ res -> x ∈ fold_left add_installed cs res.
Proof.
  revert res. induction cs as [|c cs IH]; intros res Hx; simpl; [done|].
  by apply IH, add_installed_sub.
Qed.

Lemma fold_add_installed_from cs res x :
  x ∈ fold_left add_installed cs res -> x ∈ res \/ Some x ∈ cs.
Proof.
  revert res. induction cs as [|c cs IH]; intros res Hx; simpl in *; [by left|].
  apply IH in Hx as [Hx|Hx]; [|right; by right].
  destruct c as [c|]; simpl in Hx; [|by left].
  destruct (existsb _ res); [by left|].
  apply elem_of_app in Hx as [Hx|Hx]; [by left|].
  apply list_elem_of_singleton in Hx as ->. right. by left.
Qed.

Lemma existsb_signature c res :
  existsb (fun r => bool_decide (Signature c = Signature r)) res = true
  <-> Signature c ∈ Signature <$> res.
Proof.
  rewrite existsb_exists, list_elem_of_fmap. split.
  - intros (r & Hr%list_elem_of_In & Heq%bool_decide_eq_true). by exists r.
  - intros (r & Heq & Hr). exists r. split; [by apply list_elem_of_In|].
    by apply bool_decide_eq_true.
Qed.

Lemma fold_add_installed_NoDup cs res :
  NoDup (Signature <$> res) ->
  NoDup (Signature <$> fold_left add_installed cs res).
Proof.
  revert res. induction cs as [|c cs IH]; intros res Hnd; simpl; [done|].
  apply IH. destruct c as [c|]; simpl; [|done].
  destruct (existsb _ res) eqn:E; [done|].
  rewrite fmap_app. simpl. apply NoDup_app. split; [done|]. split.
  - intros s Hs Hs'. apply list_elem_of_singleton in Hs' as ->.
    apply existsb_signature in Hs. congruence.
  - apply NoDup_singleton.
Qed.

Lemma fold_add_installed_covers cs res c :
  Some c ∈ cs ->
  Signature c ∈ Signature <$> fold_left add_installed cs res.
Proof.
  revert res. induction cs as [|c' cs IH]; intros res Hc; simpl.
  - by apply elem_of_nil in Hc.
  - apply elem_of_cons in Hc as [<-|Hc]; [|by apply IH].
    simpl. destruct (existsb _ res) eqn:E.
    + apply existsb_signature in E.
      apply list_elem_of_fmap in E as (r & -> & Hr).
      apply list_elem_of_fmap. exists r. split; [done|].
      by apply fold_add_installed_sub.
    + apply list_elem_of_fmap. exists c. split; [done|].
      apply fold_add_installed_sub, elem_of_app. right. by left.
Qed.

Lemma contains_Some t c :
  contains t (Some c) = true
  <-> GetHexSHA1Fingerprint c ∈ sha1Fingerprint <$> t.
Proof.
  simpl. rewrite existsb_exists, list_elem_of_fmap. split.
  - intros (it & Hit%list_elem_of_In & Heq%String.eqb_eq). by exists it.
  - intros (it & Heq & Hit). exists it. split; [by apply list_elem_of_In|].
    by apply String.eqb_eq.
Qed.

Lemma keep_trusted_filter t (l : list Certificate) :
  keep_trusted t (Some <$> l)
  = Some <$> filter (fun c => GetHexSHA1Fingerprint c ∈ sha1Fingerprint <$> t) l.
Proof.
  unfold keep_trusted.
  enough (forall kept,
    fold_left (fun kept c =>
       match c with
       | None => kept
       | Some _ => if contains t c then kept ++ [c] else kept
       end) (Some <$> l) kept
    = kept ++ (Some <$> filter
        (fun c => GetHexSHA1Fingerprint c ∈ sha1Fingerprint <$> t) l)) as ->
    by done.
  induction l as [|c l IH]; intros kept.
  - simpl. by rewrite app_nil_r.
  - rewrite fmap_cons. cbn [fold_left]. rewrite IH, filter_cons.
    destruct (contains t (Some c)) eqn:E.
    + apply contains_Some in E. rewrite decide_True by done.
      rewrite fmap_cons. by rewrite <- app_assoc.
    + rewrite decide_False; [done|]. intros Hin%contains_Some. congruence.
Qed.

(** C5, as amended. When the dump of the installed certificates parses to
    the entries [cs] and the trust policy parses to [t], [List] returns
    exactly the non-nil entries of [cs], without the later ones of a
    repeated signature, whose SHA-1 fingerprint is in [t], in the order of
    the dump; a certificate without trust record is left out, and so is
    every nil entry. *)
Theorem List_is_the_intersection (fs fs' : FS) (b : list byte)
    (cs : list (option Certificate)) (t : trustItems) :
  security_find_certificate h systemDirs = Success b ->
  pem_Parse b = Success cs ->
  getCertsWithTrustPolicy h fs = (fs', Ok t) ->
  List h fs
  = (fs', Ok (Some <$> filter
       (fun c => GetHexSHA1Fingerprint c ∈ sha1Fingerprint <$> t)
       (installed_certs cs)))
  /\ (forall c, c ∈ installed_certs cs -> Some c ∈ cs)
  /\ (forall c, Some c ∈ cs -> Signature c ∈ Signature <$> installed_certs cs)
  /\ NoDup (Signature <$> installed_certs cs)
  /\ (forall kept, snd (List h fs) = Ok kept -> None ∉ kept).
Proof.
  intros Hfind Hpem Hpol.
  assert (List h fs
    = (fs', Ok (Some <$> filter
         (fun c => GetHexSHA1Fingerprint c ∈ sha1Fingerprint <$> t)
         (installed_certs cs)))) as HList.
  { unfold List, readInstalledCerts. rewrite Hfind, Hpem, Hpol. simpl.
    by rewrite keep_trusted_filter. }
  split; [done|]. split; [|split; [|split]].
  - intros c Hc. apply fold_add_installed_from in Hc as [Hc|Hc]; [|done].
    by apply elem_of_nil in Hc.
  - intros c Hc. by apply fold_add_installed_covers.
  - apply fold_add_installed_NoDup. simpl. apply NoDup_nil_2.
  - intros kept. rewrite HList. simpl. intros [= <-].
    by intros (c & [=] & _)%list_elem_of_fmap.
Qed.

End List.

Import Example.

Lemma List_is_the_intersection_witness :
  let cs := [None; Some (mkcert x01 "Example CA" 1);
             Some (mkcert x02 "Example CA" 1); Some (mkcert x01 "Example CA" 1)] in
  security_find_certificate host01 systemDirs = Success [x00; x01; x02; x01]
  /\ pem_Parse [x00; x01; x02; x01] = Success cs
  /\ getCertsWithTrustPolicy host01 ∅ = (∅, Ok policy01)
  /\ List host01 ∅ = (∅, Ok [Some (mkcert x01 "Example CA" 1)]).
Proof.
  assert (getCertsWithTrustPolicy host01 ∅ = (∅, Ok policy01)) as Hpol
    by (vm_compute; reflexivity).
  assert (pem_Parse [x00; x01; x02; x01]
          = Success [None; Some (mkcert x01 "Example CA" 1);
                     Some (mkcert x02 "Example CA" 1);
                     Some (mkcert x01 "Example CA" 1)]) as Hpem
    by reflexivity.
  split; [reflexivity|]. split; [exact Hpem|]. split; [exact Hpol|].
  destruct (List_is_the_intersection host01 ∅ ∅ _ _ _ eq_refl Hpem Hpol)
    as [-> _].
  vm_compute. reflexivity.
Defined.

(** C5, counterexample. The dump has a nil entry, which [contains] counts
    as present in the policy, and [List] returns a result without it. *)
Lemma List_drops_nil_entries :
  exists cs kept,
    pem_Parse [x00; x01; x02; x01] = Success cs
    /\ snd (List host01 ∅) = Ok kept
    /\ None ∈ cs /\ contains policy01 None = true /\ None ∉ kept.
Proof.
  eexists _, _. split; [reflexivity|]. split; [vm_compute; reflexivity|].
  split; [by left|]. split; [reflexivity|].
  intros Hin. apply list_elem_of_singleton in Hin. discriminate.
Qed.

End ListFacts.

(** ** Backup *)

Module BackupFacts.
Import GoStrings GoTime Xml Store.

Section Backup.
Context `{CertTools}.
Context (h : Host).

Lemma trustSettingsExport_ok fs name content :
  TempFile h "trust-settings" = Success name ->
  security_trust_settings_export h name = Success content ->
  trustSettingsExport h fs
  = (<[name := content]> (<[name := ""]> fs), (Some name, None)).
Proof. intros Ht He. unfold trustSettingsExport. by rewrite Ht, He. Qed.

(** When the export tool succeeds the temporary file is gone when
    [Backup] returns, whatever happens afterwards. *)
Lemma Backup_removes_temp_file fs name content :
  TempFile h "trust-settings" = Success name ->
  security_trust_settings_export h name = Success content ->
  fst (Backup h fs) !! name = None.
Proof.
  intros Ht He. unfold Backup.
  rewrite (trustSettingsExport_ok _ _ _ Ht He).
  destruct getCertManageDir as [outDir|e]; simpl.
  2: { unfold os_Remove. by rewrite lookup_delete_eq. }
  destruct (os_MkdirAll h outDir); simpl.
  { unfold os_Remove. by rewrite lookup_delete_eq. }
  destruct (file_CopyFile _ _ _ _) as [fs2 err]. simpl.
  unfold os_Remove. by rewrite lookup_delete_eq.
Qed.

(** A successful [Backup] leaves the exported bytes in the backup
    directory, under the name made of the current Unix time. *)
Lemma Backup_success fs name content outDir :
  TempFile h "trust-settings" = Success name ->
  security_trust_settings_export h name = Success content ->
  getCertManageDir h = Success outDir ->
  filepath_Join outDir (backup_filename h) ≠ name ->
  snd (Backup h fs) = Ok tt ->
  fst (Backup h fs) !! filepath_Join outDir (backup_filename h) = Some content.
Proof.
  intros Ht He Hd Hne. unfold Backup.
  rewrite (trustSettingsExport_ok _ _ _ Ht He), Hd.
  destruct (os_MkdirAll h outDir); [done|].
  unfold file_CopyFile. rewrite lookup_insert_eq.
  destruct (write_failure h _); simpl; [done|]. intros _.
  unfold os_Remove. rewrite lookup_delete_ne by done.
  by rewrite lookup_insert_eq.
Qed.

(** C6 (the code departs from the claim). When the temporary file has
    been created and the export tool then fails, [trustSettingsExport]
    returns a nil file with the error, [Backup] has no name to remove, and
    the temporary file is still there when [Backup] returns the error. *)
Theorem Backup_leaves_temp_file_when_export_fails (fs : FS) (name : string)
    (e : error) :
  TempFile h "trust-settings" = Success name ->
  security_trust_settings_export h name = Failure e ->
  snd (Backup h fs) = Err e
  /\ fst (Backup h fs) !! name = Some "".
Proof.
  intros Ht He. unfold Backup, trustSettingsExport. rewrite Ht, He. simpl.
  split; [done|]. by rewrite lookup_insert_eq.
Qed.

End Backup.

Import Example.

Lemma Backup_leaves_temp_file_when_export_fails_witness :
  TempFile host_export_fails "trust-settings" = Success "/tmp/trust-settings042"
  /\ security_trust_settings_export host_export_fails "/tmp/trust-settings042"
     = Failure "exit status 1"
  /\ snd (Backup host_export_fails ∅) = Err "exit status 1"
  /\ fst (Backup host_export_fails ∅) !! "/tmp/trust-settings042" = Some "".
Proof.
  split; [reflexivity|]. split; [reflexivity|].
  apply Backup_leaves_temp_file_when_export_fails; reflexivity.
Defined.

End BackupFacts.

(** ** Restore *)

Module RestoreFacts.
Import GoStrings GoTime Xml Store.

Section Restore.
Context `{CertTools}.
Context (h : Host).
Context (SortFileInfos : list FileInfo -> list FileInfo).

(** [older f g]: the backup [f] is not more recent than [g].  The sort
    leaves the entries of the listing in place, in that order. *)
Context (older : relation FileInfo).
Hypothesis SortFileInfos_perm : forall fis, SortFileInfos fis ≡ₚ fis.
Hypothesis SortFileInfos_sorted :
  forall fis, StronglySorted older (SortFileInfos fis).

Abbreviation restore_point := (restore_point h SortFileInfos).
Abbreviation Restore := (Restore h SortFileInfos).

Lemma latest_of_listing fis :
  fis ≠ [] ->
  exists latest,
    last (SortFileInfos fis) = Some latest
    /\ latest ∈ fis
    /\ forall f, f ∈ fis -> f ≠ latest -> older f latest.
Proof.
  intros Hne.
  destruct (last (SortFileInfos fis)) as [latest|] eqn:Hlast.
  - exists latest. split; [done|].
    apply last_Some in Hlast as [l Hl].
    split.
    + rewrite <- (SortFileInfos_perm fis), Hl. apply elem_of_app. right. by left.
    + intros f Hf Hfl.
      rewrite <- (SortFileInfos_perm fis), Hl in Hf.
      apply elem_of_app in Hf as [Hf|Hf].
      * pose proof (SortFileInfos_sorted fis) as Hs. rewrite Hl in Hs.
        apply (StronglySorted_app_1_elem_of _ _ _ _ _ Hs Hf). by left.
      * apply list_elem_of_singleton in Hf. done.
  - apply last_None in Hlast.
    pose proof (SortFileInfos_perm fis) as Hp. rewrite Hlast in Hp.
    apply Permutation_nil_l in Hp. done.
Qed.

Lemma restore_point_latest dir fis :
  getCertManageDir h = Success dir ->
  ioutil_ReadDir h dir = Success fis ->
  fis ≠ [] ->
  exists latest,
    latest ∈ fis
    /\ (forall f, f ∈ fis -> f ≠ latest -> older f latest)
    /\ restore_point "" = filepath_Join dir (fiName latest).
Proof.
  intros Hd Hr Hne.
  destruct (latest_of_listing fis Hne) as (latest & Hlast & Hin & Hmax).
  exists latest. split; [done|]. split; [done|].
  unfold Store.restore_point, getLatestBackupFile. simpl.
  rewrite Hd, Hr, Hlast.
  rewrite bool_decide_eq_false_2; [done|].
  by destruct fis.
Qed.

(** C4. Without a path [Restore] settles on the file that the sort puts
    last, the most recent backup: every other file of the backup directory
    is older, and a file that is strictly the most recent (as the one
    stamped T3 among T1 < T2 < T3) is the one chosen.  It fails with "No
    backup file found and -file not specified" when no path is given and
    there is no backup, and with "Restore file doesn't exist" when the path
    settled on is not on disk. *)
Theorem Restore_resolution (fs : FS) :
  (forall dir fis,
     getCertManageDir h = Success dir ->
     ioutil_ReadDir h dir = Success fis ->
     fis ≠ [] ->
     (exists latest,
        latest ∈ fis
        /\ (forall f, f ∈ fis -> f ≠ latest -> older f latest)
        /\ restore_point "" = filepath_Join dir (fiName latest))
     /\ (forall f3,
           f3 ∈ fis ->
           (forall f, f ∈ fis -> f ≠ f3 -> ~ older f3 f) ->
           restore_point "" = filepath_Join dir (fiName f3)))
  /\ ((forall dir, getCertManageDir h = Success dir ->
         ioutil_ReadDir h dir = Success [] \/
         exists e, ioutil_ReadDir h dir = Failure e) ->
      Restore "" fs = Err no_backup_found)
  /\ (forall where_,
        restore_point where_ ≠ "" ->
        fs !! restore_point where_ = None ->
        Restore where_ fs = Err restore_file_missing)
  /\ (forall where_,
        where_ ≠ "" -> restore_point where_ = where_).
Proof.
  split; [|split; [|split]].
  - intros dir fis Hd Hr Hne.
    destruct (restore_point_latest dir fis Hd Hr Hne)
      as (latest & Hin & Hmax & Hpt).
    split; [by exists latest|].
    intros f3 Hf3 Hstrict.
    destruct (decide (latest = f3)) as [<-|Hneq]; [done|].
    exfalso. apply (Hstrict latest Hin Hneq). apply Hmax; [done|]. congruence.
  - intros Hnone.
    assert (restore_point "" = "") as Hpt.
    { unfold Store.restore_point, getLatestBackupFile. simpl.
      destruct (getCertManageDir h) as [dir|e] eqn:Hd; [|done].
      destruct (Hnone dir eq_refl) as [->|[e ->]]; done. }
    unfold Store.Restore. by rewrite Hpt.
  - intros where_ Hne Hmiss. unfold Store.Restore.
    destruct (String.eqb_spec (restore_point where_) ""); [done|].
    unfold file_Exists. rewrite Hmiss.
    rewrite bool_decide_eq_false_2; [done|]. by intros [? ?].
  - intros where_ Hne. unfold Store.restore_point.
    by destruct (String.eqb_spec where_ "").
Qed.

End Restore.

Import Example.

#[local] Instance not_after_trans : Transitive not_after.
Proof. intros f g k. unfold not_after. lia. Qed.

#[local] Instance not_after_total : Total not_after.
Proof. intros f g. unfold not_after. lia. Qed.

Lemma Restore_resolution_witness :
  Store.restore_point host_three_backups sort_by_time ""
  = "/Users/ada/Library/cert-manage/trust-backup-1508962907.xml"
  /\ Store.Restore host_three_backups sort_by_time "" ∅ = Err restore_file_missing
  /\ Store.Restore host01 sort_by_time "" ∅ = Err no_backup_found.
Proof.
  pose proof (Restore_resolution host_three_backups sort_by_time not_after
                (merge_sort_Permutation not_after)
                (StronglySorted_merge_sort not_after) ∅)
    as (Hlatest & _ & Hmissing & _).
  pose proof (Restore_resolution host01 sort_by_time not_after
                (merge_sort_Permutation not_after)
                (StronglySorted_merge_sort not_after) ∅)
    as (_ & Hnone & _ & _).
  split; [|split].
  - destruct (Hlatest "/Users/ada/Library/cert-manage"
                [backup3; backup1; backup2] eq_refl eq_refl) as [_ Hsel];
      [done|].
    apply (Hsel backup3); [by left|].
    intros f Hf Hne Hold. unfold not_after in Hold.
    repeat (apply elem_of_cons in Hf as [->|Hf]; [try done; vm_compute in Hold; done|]).
    by apply elem_of_nil in Hf.
  - apply Hmissing; vm_compute; [discriminate|reflexivity].
  - apply Hnone. intros dir _. by left.
Defined.

End RestoreFacts.

(** ** Reading the trust policy *)

Module ParseFacts.
Import GoStrings GoTime Xml Store.

Lemma list_pair_ind {A} (P : list A -> Prop) :
  P [] -> (forall x, P [x]) -> (forall x y l, P l -> P (x :: y :: l)) ->
  forall l, P l.
Proof.
  intros Hnil Hone Hstep l.
  enough (P l /\ forall x, P (x :: l)) as [? _] by done.
  induction l as [|y l [IH1 IH2]]; [by split|].
  split; [by apply IH2|]. intros x. by apply Hstep.
Qed.

Section Convert.
Context `{CertTools}.

(** The loop ends in a panic when the number of data entries is odd. *)
Lemma convert_loop_odd keys dates rest half out :
  Nat.Odd (length rest) ->
  exists msg, convert_loop keys dates rest half out = Panic msg.
Proof.
  revert half out. induction rest as [|d|d1 d2 rest IH] using list_pair_ind;
    intros half out Hodd.
  - destruct Hodd as [k Hk]. simpl in Hk. lia.
  - simpl. destruct (keys !! half); by eexists.
  - simpl. destruct (keys !! half); [|by eexists].
    destruct (dates !! half); [|by eexists].
    apply IH. destruct Hodd as [n Hn]. simpl in Hn. exists (n - 1)%nat. lia.
Qed.

(** The loop ends in a panic when there are fewer keys, or fewer dates,
    than pairs of data entries. *)
Lemma convert_loop_short keys dates rest half out n :
  length rest = (2 * n)%nat ->
  (half <= length keys)%nat -> (half <= length dates)%nat ->
  (length keys < half + n \/ length dates < half + n)%nat ->
  exists msg, convert_loop keys dates rest half out = Panic msg.
Proof.
  revert half out n. induction rest as [|d|d1 d2 rest IH] using list_pair_ind;
    intros half out n Hlen Hhk Hhd Hshort.
  - simpl in Hlen. lia.
  - simpl. destruct (keys !! half); by eexists.
  - simpl. destruct (keys !! half) as [k|] eqn:Hk; [|by eexists].
    destruct (dates !! half) as [dt|] eqn:Hdt; [|by eexists].
    apply lookup_lt_Some in Hk, Hdt. simpl in Hlen.
    apply (IH _ _ (n - 1)%nat); lia.
Qed.

(** Otherwise it returns one item for every pair of data entries. *)
Lemma convert_loop_ok keys dates rest half out n :
  length rest = (2 * n)%nat ->
  (half + n <= length keys)%nat ->
  (half + n <= length dates)%nat ->
  convert_loop keys dates rest half out
  = Ok (out ++ items_of (drop half keys) (drop half dates) rest).
Proof.
  revert half out n. induction rest as [|d|d1 d2 rest IH] using list_pair_ind;
    intros half out n Hlen Hk Hd.
  - simpl. by rewrite app_nil_r.
  - simpl in Hlen. lia.
  - simpl in Hlen.
    assert (is_Some (keys !! half)) as [k Hkey]
      by (apply lookup_lt_is_Some_2; lia).
    assert (is_Some (dates !! half)) as [dt Hdate]
      by (apply lookup_lt_is_Some_2; lia).
    simpl. rewrite Hkey, Hdate.
    rewrite (drop_S _ _ _ Hkey), (drop_S _ _ _ Hdate).
    rewrite (IH _ _ (n - 1)%nat); [by rewrite <- app_assoc|lia..].
Qed.

Lemma convertToTrustItems_ok outer inner innermost n :
  ChiDict outer = Some inner -> ChiDict inner = Some innermost ->
  length (ChiData innermost) = (2 * n)%nat ->
  (n <= length (ChiKey inner))%nat ->
  (n <= length (ChiDate innermost))%nat ->
  convertToTrustItems (Plist (Some outer))
  = Ok (items_of (ChiKey inner) (ChiDate innermost) (ChiData innermost)).
Proof.
  intros Ho Hi Hlen Hk Hd. unfold convertToTrustItems. simpl.
  rewrite Ho, Hi. by rewrite (convert_loop_ok _ _ _ _ _ n).
Qed.

Lemma convert_item_issuer k d1 d1' d2 dt :
  convert_item k d1' d2 dt = set_issuer (issuer_of d1') (convert_item k d1 d2 dt).
Proof. reflexivity. Qed.

(** Replacing the issuer blob of record [i] changes the issuer name of
    item [i] and nothing else. *)
Lemma items_of_insert_issuer keys dates datas i d' it :
  items_of keys dates datas !! i = Some it ->
  items_of keys dates (<[(2 * i)%nat := d']> datas)
  = <[i := set_issuer (issuer_of d') it]> (items_of keys dates datas).
Proof.
  revert keys dates datas. induction i as [|i IH]; intros keys dates datas Hit.
  - destruct datas as [|d1 [|d2 datas]]; [done..|].
    destruct keys as [|k keys]; [done|]. destruct dates as [|dt dates]; [done|].
    simpl in Hit. injection Hit as <-. simpl.
    by rewrite (convert_item_issuer k d1 d').
  - destruct datas as [|d1 [|d2 datas]]; [done..|].
    destruct keys as [|k keys]; [done|]. destruct dates as [|dt dates]; [done|].
    simpl in Hit. replace (2 * S i)%nat with (S (S (2 * i))) by lia.
    simpl. f_equal. by apply IH.
Qed.

Lemma issuer_of_corrupt d :
  asn1_Unmarshal
    (fst (Base64.DecodeString (r2_Replace (r_ReplaceAllString (dataText d)))))
  = None ->
  issuer_of d = emptyName.
Proof. intros Hd. unfold issuer_of, convert_item. simpl. by rewrite Hd. Qed.

Context (h : Host).

Lemma getCertsWithTrustPolicy_exported fs name content :
  TempFile h "trust-settings" = Success name ->
  security_trust_settings_export h name = Success content ->
  snd (getCertsWithTrustPolicy h fs) = ParseSnapshot content
  /\ fst (getCertsWithTrustPolicy h fs) !! name = None.
Proof.
  intros Ht He. unfold getCertsWithTrustPolicy, trustSettingsExport.
  rewrite Ht, He. simpl. rewrite lookup_insert_eq. simpl.
  split; [done|]. unfold os_Remove. by rewrite lookup_delete_eq.
Qed.

(** C9 (the code departs from the claim). The path that reads the trust
    policy for [List] panics: with a nil dereference when the export fails
    (the file returned is nil and its name is asked for when the removal is
    deferred) and when one of the three nested dictionaries is missing,
    and with an index out of range when the number of data entries is odd
    or exceeds twice the number of keys or of dates. *)
Theorem reading_the_policy_panics (fs : FS) :
  (forall e, TempFile h "trust-settings" = Failure e ->
     snd (getCertsWithTrustPolicy h fs) = Panic nil_dereference)
  /\ (forall name e,
        TempFile h "trust-settings" = Success name ->
        security_trust_settings_export h name = Failure e ->
        snd (getCertsWithTrustPolicy h fs) = Panic nil_dereference)
  /\ (forall name content p,
        TempFile h "trust-settings" = Success name ->
        security_trust_settings_export h name = Success content ->
        parsePlist content = Ok p ->
        (plistChiDict p = None
         \/ (exists outer, plistChiDict p = Some outer /\ ChiDict outer = None)
         \/ (exists outer inner, plistChiDict p = Some outer
               /\ ChiDict outer = Some inner /\ ChiDict inner = None)) ->
        snd (getCertsWithTrustPolicy h fs) = Panic nil_dereference)
  /\ (forall name content outer inner innermost,
        TempFile h "trust-settings" = Success name ->
        security_trust_settings_export h name = Success content ->
        parsePlist content = Ok (Plist (Some outer)) ->
        ChiDict outer = Some inner -> ChiDict inner = Some innermost ->
        (Nat.Odd (length (ChiData innermost))
         \/ (2 * length (ChiKey inner) < length (ChiData innermost))%nat
         \/ (2 * length (ChiDate innermost) < length (ChiData innermost))%nat) ->
        exists msg, snd (getCertsWithTrustPolicy h fs) = Panic msg).
Proof.
  split; [|split; [|split]].
  - intros e Ht. unfold getCertsWithTrustPolicy, trustSettingsExport.
    by rewrite Ht.
  - intros name e Ht He. unfold getCertsWithTrustPolicy, trustSettingsExport.
    by rewrite Ht, He.
  - intros name content p Ht He Hp Hnil.
    destruct (getCertsWithTrustPolicy_exported fs name content Ht He) as [-> _].
    unfold ParseSnapshot. rewrite Hp. simpl. unfold convertToTrustItems.
    destruct Hnil as [->|[(outer & -> & ->)|(outer & inner & -> & -> & ->)]];
      done.
  - intros name content outer inner innermost Ht He Hp Ho Hi Hbad.
    destruct (getCertsWithTrustPolicy_exported fs name content Ht He) as [-> _].
    unfold ParseSnapshot. rewrite Hp. simpl. unfold convertToTrustItems. simpl.
    rewrite Ho, Hi.
    destruct (Nat.Even_or_Odd (length (ChiData innermost))) as [[n Hn]|Hodd];
      [|by apply convert_loop_odd].
    destruct Hbad as [[m Hm]|Hshort]; [lia|].
    apply (convert_loop_short _ _ _ _ _ n); [done|lia|lia|lia].
Qed.

(** C3 (the code departs from the claim in its first half). A document
    without the outer dictionary is decoded without error, into a [plist]
    whose dictionary is nil, and converting it panics: no error is
    returned.  The second half holds: when the issuer blob of one record
    does not decode, the items are those of the intact document except that
    this record has the empty issuer name. *)
Theorem ParseSnapshot_malformed :
  (parsePlist Example.doc_no_dict = Ok (Plist None)
   /\ ParseSnapshot Example.doc_no_dict = Panic nil_dereference)
  /\ (forall keys dates datas i d' it,
        items_of keys dates datas !! i = Some it ->
        asn1_Unmarshal
          (fst (Base64.DecodeString
                  (r2_Replace (r_ReplaceAllString (dataText d')))))
        = None ->
        items_of keys dates (<[(2 * i)%nat := d']> datas)
        = <[i := set_issuer emptyName it]> (items_of keys dates datas)).
Proof.
  split; [split; reflexivity|].
  intros keys dates datas i d' it Hit Hd.
  rewrite (items_of_insert_issuer _ _ _ _ _ it Hit).
  by rewrite (issuer_of_corrupt d' Hd).
Qed.

End Convert.

Import Example.

Lemma reading_the_policy_panics_witness :
  snd (getCertsWithTrustPolicy host_export_fails ∅) = Panic nil_dereference
  /\ snd (getCertsWithTrustPolicy (host_exporting (toXml [])) ∅)
     = Panic nil_dereference
  /\ (exists msg,
        snd (getCertsWithTrustPolicy (host_exporting doc_odd_data) ∅) = Panic msg)
  /\ (exists msg,
        snd (getCertsWithTrustPolicy (host_exporting doc_no_date) ∅) = Panic msg).
Proof.
  split; [|split; [|split]].
  - destruct (reading_the_policy_panics host_export_fails ∅) as (_ & Hexp & _).
    by apply (Hexp "/tmp/trust-settings042" "exit status 1").
  - destruct (reading_the_policy_panics (host_exporting (toXml [])) ∅)
      as (_ & _ & Hnil & _).
    eapply (Hnil "/tmp/trust-settings042"); [reflexivity..|].
    right. right. eexists _, _. repeat split; reflexivity.
  - destruct (reading_the_policy_panics (host_exporting doc_odd_data) ∅)
      as (_ & _ & _ & Hidx).
    eapply (Hidx "/tmp/trust-settings042"); [reflexivity..|].
    left. by exists 0%nat.
  - destruct (reading_the_policy_panics (host_exporting doc_no_date) ∅)
      as (_ & _ & _ & Hidx).
    eapply (Hidx "/tmp/trust-settings042"); [reflexivity..|].
    right. right. simpl. lia.
Defined.

Lemma ParseSnapshot_malformed_witness :
  ParseSnapshot doc_no_dict = Panic nil_dereference
  /\ ParseSnapshot doc_corrupt_issuer = Ok [set_issuer "" record01; record02]
  /\ items_of [Key "01"; Key "02"]
       [Date "2017-10-25T20:21:45Z"; Date "2017-10-25T20:21:46Z"]
       (<[(2 * 0)%nat := Data "!!not base64!!"]>
          [Data "MApFeGFtcGxlIENB"; Data "AQ=="; Data "MApFeGFtcGxlIENB"; Data "Ag=="])
     = [set_issuer "" record01; record02].
Proof.
  destruct (@ParseSnapshot_malformed lib) as [[_ Hpanic] Hcorrupt].
  split; [exact Hpanic|]. split; [vm_compute; reflexivity|].
  rewrite (Hcorrupt _ _ _ 0%nat (Data "!!not base64!!") record01);
    [reflexivity|vm_compute; reflexivity|vm_compute; reflexivity].
Defined.

End ParseFacts.

(** ** The codec: writing a snapshot and reading it back *)

Module CodecFacts.
Import GoStrings GoTime Xml Store Codec.

#[local] Arguments String.append !s1 s2 : simpl nomatch.

(** *** Strings *)

Lemma append_assoc (a b c : string) : (a +:+ b) +:+ c = a +:+ (b +:+ c).
Proof.
  induction a as [|x a IH]; [done|].
  change (String x ((a +:+ b) +:+ c) = String x (a +:+ (b +:+ c))).
  by rewrite IH.
Qed.

Lemma append_empty_r (a : string) : a +:+ "" = a.
Proof.
  induction a as [|x a IH]; [done|].
  change (String x (a +:+ "") = String x a). by rewrite IH.
Qed.

Lemma sforall_impl (f g : ascii -> bool) (s : string) :
  (forall c, f c = true -> g c = true) ->
  sforall f s = true -> sforall g s = true.
Proof.
  intros Hfg. induction s as [|c s IH]; [done|].
  change (f c && sforall f s = true -> g c && sforall g s = true).
  intros [Hc Hs]%andb_true_iff. rewrite (Hfg c Hc). by apply IH.
Qed.

Lemma sfilter_all f (s : string) : sforall f s = true -> sfilter f s = s.
Proof.
  induction s as [|c s IH]; [done|].
  change (f c && sforall f s = true
          -> (if f c then String c (sfilter f s) else sfilter f s) = String c s).
  intros [-> Hs]%andb_true_iff. by rewrite IH.
Qed.

(** A property of characters is checked on all of them by computation. *)
Lemma ascii_all (P : ascii -> bool) :
  forallb (fun n => P (ascii_of_nat n)) (seq 0 256) = true ->
  forall c, P c = true.
Proof.
  intros Hall c. rewrite forallb_forall in Hall.
  rewrite <- (ascii_nat_embedding c). apply Hall, in_seq.
  pose proof (nat_ascii_bounded c). lia.
Qed.

Lemma ascii_all_impl (f g : ascii -> bool) :
  forallb (fun n => implb (f (ascii_of_nat n)) (g (ascii_of_nat n))) (seq 0 256)
  = true ->
  forall c, f c = true -> g c = true.
Proof.
  intros Hall c Hf.
  pose proof (ascii_all (fun c => implb (f c) (g c)) Hall c) as Hc.
  simpl in Hc. by rewrite Hf in Hc.
Qed.

Lemma lower_upper_hex c :
  is_lower_hex c = true -> lower_char (upper_char c) = c.
Proof.
  intros Hc. apply Ascii.eqb_eq. revert c Hc.
  apply ascii_all_impl. vm_compute. reflexivity.
Qed.

Lemma upper_hex_chardata c :
  is_lower_hex c = true -> is_chardata (upper_char c) = true.
Proof. revert c. apply ascii_all_impl. vm_compute. reflexivity. Qed.

Lemma ToLower_ToUpper_hex (s : string) :
  sforall is_lower_hex s = true -> ToLower (ToUpper s) = s.
Proof.
  induction s as [|c s IH]; [done|].
  change (is_lower_hex c && sforall is_lower_hex s = true
          -> String (lower_char (upper_char c)) (ToLower (ToUpper s)) = String c s).
  intros [Hc Hs]%andb_true_iff. rewrite (lower_upper_hex c Hc).
  f_equal. by apply IH.
Qed.

Lemma ToUpper_hex_chardata (s : string) :
  sforall is_lower_hex s = true -> sforall is_chardata (ToUpper s) = true.
Proof.
  induction s as [|c s IH]; [done|].
  change (is_lower_hex c && sforall is_lower_hex s = true
          -> is_chardata (upper_char c) && sforall is_chardata (ToUpper s) = true).
  intros [Hc Hs]%andb_true_iff. rewrite (upper_hex_chardata c Hc). by apply IH.
Qed.

(** *** base64 *)

Import Base64.

Lemma decodeMap_enc (n : N) : (n < 64)%N -> decodeMap (enc n) = Some n.
Proof.
  intros Hn.
  assert (forallb (fun k => bool_decide
            (decodeMap (enc (N.of_nat k)) = Some (N.of_nat k))) (seq 0 64)
          = true) as Hall by (vm_compute; reflexivity).
  rewrite forallb_forall in Hall.
  specialize (Hall (N.to_nat n)). rewrite N2Nat.id in Hall.
  assert (In (N.to_nat n) (seq 0 64)) as Hin by (apply in_seq; lia).
  apply Hall in Hin. by apply bool_decide_eq_true in Hin.
Qed.

Lemma enc_class (n : N) :
  (n < 64)%N ->
  in_base64_class (enc n) = true /\ is_chardata (enc n) = true
  /\ is_newline (enc n) = false /\ Ascii.eqb (enc n) padChar = false.
Proof.
  intros Hn.
  assert (forallb (fun k =>
            let c := enc (N.of_nat k) in
            in_base64_class c && is_chardata c && negb (is_newline c)
            && negb (Ascii.eqb c padChar)) (seq 0 64)
          = true) as Hall by (vm_compute; reflexivity).
  rewrite forallb_forall in Hall.
  specialize (Hall (N.to_nat n)). rewrite N2Nat.id in Hall.
  assert (In (N.to_nat n) (seq 0 64)) as Hin by (apply in_seq; lia).
  apply Hall in Hin. simpl in Hin.
  repeat (apply andb_true_iff in Hin as [Hin ?]).
  repeat split; try done; by apply negb_true_iff.
Qed.

Lemma byte_of_to_N (b : byte) : byte_of_N (Byte.to_N b) = b.
Proof.
  unfold byte_of_N. rewrite <- ascii_of_byte_via_N.
  apply byte_of_ascii_of_byte.
Qed.

Lemma to_N_lt (b : byte) : (Byte.to_N b < 256)%N.
Proof. pose proof (Byte.to_N_bounded b). lia. Qed.

Ltac nlia := zify; Z.to_euclidean_division_equations; lia.

Lemma list_triple_ind {A} (P : list A -> Prop) :
  P [] -> (forall x, P [x]) -> (forall x y, P [x; y]) ->
  (forall x y z l, P l -> P (x :: y :: z :: l)) ->
  forall l, P l.
Proof.
  intros Hnil Hone Htwo Hstep l.
  enough (P l /\ (forall x, P (x :: l)) /\ forall x y, P (x :: y :: l))
    as [? _] by done.
  induction l as [|z l (IH0 & IH1 & IH2)]; [by repeat split|].
  split; [exact (IH1 z)|]. split; [exact (fun x => IH2 x z)|].
  intros x y. by apply Hstep.
Qed.

Lemma quantum_lt b0 b1 b2 : (quantum b0 b1 b2 < 16777216)%N.
Proof.
  unfold quantum.
  pose proof (to_N_lt b0). pose proof (to_N_lt b1). pose proof (to_N_lt b2).
  lia.
Qed.

Lemma decodeMap_sextet val i :
  decodeMap (sextet val i) = Some ((val / 64 ^ (3 - i)) mod 64)%N.
Proof. apply decodeMap_enc, N.mod_lt. done. Qed.

Lemma sextet_class val i :
  in_base64_class (sextet val i) = true /\ is_chardata (sextet val i) = true
  /\ is_newline (sextet val i) = false.
Proof.
  destruct (enc_class ((val / 64 ^ (3 - i)) mod 64)%N) as (? & ? & ? & _);
    [by apply N.mod_lt|done].
Qed.

Lemma decodeMap_padChar : decodeMap padChar = None.
Proof. reflexivity. Qed.

(** The value of a quantum comes back from its four digits, and the
    bytes from the value. *)
Lemma unquantum_digits val :
  (val < 16777216)%N ->
  unquantum ((val / 64 ^ (3 - 0)) mod 64) ((val / 64 ^ (3 - 1)) mod 64)
            ((val / 64 ^ (3 - 2)) mod 64) ((val / 64 ^ (3 - 3)) mod 64) = val.
Proof.
  intros Hval. unfold unquantum.
  change (64 ^ (3 - 0))%N with 262144%N. change (64 ^ (3 - 1))%N with 4096%N.
  change (64 ^ (3 - 2))%N with 64%N. change (64 ^ (3 - 3))%N with 1%N.
  nlia.
Qed.

Lemma out_byte_quantum b0 b1 b2 :
  out_byte (quantum b0 b1 b2) 0 = b0
  /\ out_byte (quantum b0 b1 b2) 1 = b1
  /\ out_byte (quantum b0 b1 b2) 2 = b2.
Proof.
  pose proof (to_N_lt b0). pose proof (to_N_lt b1). pose proof (to_N_lt b2).
  unfold out_byte, quantum.
  change (256 ^ (2 - 0))%N with 65536%N. change (256 ^ (2 - 1))%N with 256%N.
  change (256 ^ (2 - 2))%N with 1%N.
  rewrite <- (byte_of_to_N b0) at 2. rewrite <- (byte_of_to_N b1) at 3.
  rewrite <- (byte_of_to_N b2) at 4.
  repeat split; f_equal; nlia.
Qed.

Lemma last_digit_zero b0 b1 :
  ((quantum b0 b1 x00 / 64 ^ (3 - 3)) mod 64 = 0)%N.
Proof.
  unfold quantum. change (Byte.to_N x00) with 0%N.
  change (64 ^ (3 - 3))%N with 1%N. nlia.
Qed.

Lemma last_digits_zero b0 :
  ((quantum b0 x00 x00 / 64 ^ (3 - 2)) mod 64 = 0)%N
  /\ ((quantum b0 x00 x00 / 64 ^ (3 - 3)) mod 64 = 0)%N.
Proof.
  unfold quantum. change (Byte.to_N x00) with 0%N.
  change (64 ^ (3 - 3))%N with 1%N. change (64 ^ (3 - 2))%N with 64%N.
  split; nlia.
Qed.

Lemma decode_quantum c0 c1 c2 c3 rest d0 d1 d2 d3 :
  decodeMap c0 = Some d0 -> decodeMap c1 = Some d1 ->
  decodeMap c2 = Some d2 -> decodeMap c3 = Some d3 ->
  decode (String c0 (String c1 (String c2 (String c3 rest))))
  = (out_byte (unquantum d0 d1 d2 d3) 0 :: out_byte (unquantum d0 d1 d2 d3) 1
       :: out_byte (unquantum d0 d1 d2 d3) 2 :: fst (decode rest),
     snd (decode rest)).
Proof.
  intros H0 H1 H2 H3. cbn [decode]. rewrite H0, H1, H2, H3.
  by destruct (decode rest).
Qed.

Lemma decode_EncodeToString (bs : list byte) :
  decode (EncodeToString bs) = (bs, None).
Proof.
  induction bs as [|b0|b0 b1|b0 b1 b2 bs IH] using list_triple_ind.
  - reflexivity.
  - cbn [EncodeToString decode].
    rewrite !decodeMap_sextet, decodeMap_padChar. cbn [Ascii.eqb andb].
    change (Ascii.eqb padChar padChar) with true. cbn [andb].
    destruct (last_digits_zero b0) as [E2 E3].
    pose proof (unquantum_digits _ (quantum_lt b0 x00 x00)) as Hq.
    rewrite E2, E3 in Hq. rewrite Hq.
    by destruct (out_byte_quantum b0 x00 x00) as (-> & _ & _).
  - cbn [EncodeToString decode].
    rewrite !decodeMap_sextet, decodeMap_padChar.
    change (Ascii.eqb padChar padChar) with true. cbv iota.
    pose proof (unquantum_digits _ (quantum_lt b0 b1 x00)) as Hq.
    rewrite (last_digit_zero b0 b1) in Hq. rewrite Hq.
    by destruct (out_byte_quantum b0 b1 x00) as (-> & -> & _).
  - cbn [EncodeToString].
    rewrite (decode_quantum _ _ _ _ _ _ _ _ _
               (decodeMap_sextet _ 0) (decodeMap_sextet _ 1)
               (decodeMap_sextet _ 2) (decodeMap_sextet _ 3)).
    rewrite (unquantum_digits _ (quantum_lt _ _ _)), IH.
    by destruct (out_byte_quantum b0 b1 b2) as (-> & -> & ->).
Qed.

Lemma base64_text_sextet val i : base64_text (sextet val i) = true.
Proof.
  destruct (sextet_class val i) as (H1 & H2 & H3).
  unfold base64_text. by rewrite H1, H2, H3.
Qed.

Lemma EncodeToString_text (bs : list byte) :
  sforall base64_text (EncodeToString bs) = true.
Proof.
  induction bs as [|b0|b0 b1|b0 b1 b2 bs IH] using list_triple_ind.
  - reflexivity.
  - cbn [EncodeToString sforall]. by rewrite !base64_text_sextet.
  - cbn [EncodeToString sforall]. by rewrite !base64_text_sextet.
  - cbn [EncodeToString sforall]. by rewrite !base64_text_sextet, IH.
Qed.

Lemma DecodeString_EncodeToString (bs : list byte) :
  DecodeString (EncodeToString bs) = (bs, None).
Proof.
  unfold DecodeString. rewrite sfilter_all; [apply decode_EncodeToString|].
  apply (sforall_impl base64_text); [|apply EncodeToString_text].
  intros c [_ Hc]%andb_true_iff. done.
Qed.

(** The two clean-up steps of [convert_item] leave base64 text as it is. *)
Lemma strip_base64_text (s : string) :
  sforall base64_text s = true -> r2_Replace (r_ReplaceAllString s) = s.
Proof.
  intros Hs. unfold r2_Replace, r_ReplaceAllString.
  rewrite (sfilter_all in_base64_class).
  - apply sfilter_all. revert Hs. apply sforall_impl.
    apply ascii_all_impl. vm_compute. reflexivity.
  - revert Hs. apply sforall_impl.
    intros c [[Hc _]%andb_true_iff _]%andb_true_iff. done.
Qed.

(** *** Timestamps *)

Lemma below_all (P : Z -> bool) (n : Z) :
  forallb (fun k => P (Z.of_nat k)) (seq 0 (Z.to_nat n)) = true ->
  forall x, 0 <= x < n -> P x = true.
Proof.
  intros Hall x Hx. rewrite forallb_forall in Hall.
  rewrite <- (Z2Nat.id x) by lia. apply Hall, in_seq. lia.
Qed.

Lemma appendInt_two x : 0 <= x <= 99 -> appendInt x 2 = two_digits x.
Proof.
  intros Hx. apply String.eqb_eq. revert x Hx.
  enough (forall x, 0 <= x < 100 ->
            String.eqb (appendInt x 2) (two_digits x) = true) as Hall
    by (intros x Hx; apply Hall; lia).
  apply below_all. vm_compute. reflexivity.
Qed.

Lemma appendInt_four x : 0 <= x <= 9999 -> appendInt x 4 = four_digits x.
Proof.
  intros Hx. apply String.eqb_eq. revert x Hx.
  enough (forall x, 0 <= x < 10000 ->
            String.eqb (appendInt x 4) (four_digits x) = true) as Hall
    by (intros x Hx; apply Hall; lia).
  apply below_all. vm_compute. reflexivity.
Qed.

Lemma digit_val_digit_char n :
  digit_val (digit_char n) = Some (Z.of_N (n mod 10)).
Proof.
  unfold digit_val, digit_char, is_digit, in_range.
  rewrite N_ascii_embedding by nlia.
  replace ((48 <=? 48 + n mod 10)%N && (48 + n mod 10 <=? 57)%N) with true.
  - f_equal. nlia.
  - symmetry. apply andb_true_iff. split; apply N.leb_le; nlia.
Qed.

Lemma digit_char_chardata n : is_chardata (digit_char n) = true.
Proof.
  assert (forallb (fun k => is_chardata (digit_char (N.of_nat k))) (seq 0 10)
          = true) as Hall by (vm_compute; reflexivity).
  rewrite forallb_forall in Hall.
  unfold digit_char. rewrite <- (N.Div0.mod_mod n 10).
  rewrite <- (N2Nat.id (n mod 10)). apply Hall, in_seq.
  assert (n mod 10 < 10)%N as Hlt by (by apply N.mod_lt).
  revert Hlt. generalize (n mod 10)%N. intros m Hm. lia.
Qed.

Lemma getnum_two fixed x rest :
  0 <= x <= 99 -> getnum fixed (two_digits x +:+ rest) = Some (x, rest).
Proof.
  intros Hx. unfold two_digits, getnum. cbn [String.append].
  rewrite !digit_val_digit_char. do 2 f_equal. nlia.
Qed.

Lemma getyear_four x rest :
  0 <= x <= 9999 -> getyear (four_digits x +:+ rest) = Some (x, rest).
Proof.
  intros Hx. unfold four_digits, getyear. cbn [String.append].
  rewrite !digit_val_digit_char. do 2 f_equal. nlia.
Qed.

Lemma skip_literal c rest : skip c (String c "" +:+ rest) = Some rest.
Proof. unfold skip. cbn [String.append]. by rewrite Ascii.eqb_refl. Qed.

Lemma in_bounds_ok lo hi x : lo <= x <= hi -> in_bounds lo hi x = Some tt.
Proof.
  intros Hx. unfold in_bounds.
  destruct (Z.leb_spec lo x), (Z.leb_spec x hi); simpl; [done|lia..].
Qed.

Lemma daysIn_le m y : daysIn m y <= 31.
Proof.
  unfold daysIn. repeat (destruct (_ =? _)); simpl; try lia.
  all: destruct (isLeap y); lia.
Qed.

Lemma Format_eq t :
  valid_time t ->
  Format t
  = four_digits (year t) +:+ "-" +:+ two_digits (month t) +:+ "-"
    +:+ two_digits (day t) +:+ "T" +:+ two_digits (hour t) +:+ ":"
    +:+ two_digits (minute t) +:+ ":" +:+ two_digits (second t) +:+ "Z".
Proof.
  intros [Hy Hmo Hd Hh Hmi Hs]. unfold Format.
  pose proof (daysIn_le (month t) (year t)).
  rewrite appendInt_four by done.
  rewrite !appendInt_two by lia. done.
Qed.

Lemma ParseInLocation_Format t :
  valid_time t -> ParseInLocation (Format t) = Some (as_written t).
Proof.
  intros Ht. rewrite (Format_eq t Ht). destruct Ht as [Hy Hmo Hd Hh Hmi Hs].
  pose proof (daysIn_le (month t) (year t)).
  unfold ParseInLocation.
  rewrite getyear_four by done. cbn [mbind option_bind].
  rewrite skip_literal. cbn [mbind option_bind].
  rewrite getnum_two by lia. cbn [mbind option_bind].
  rewrite in_bounds_ok by done. cbn [mbind option_bind].
  rewrite skip_literal. cbn [mbind option_bind].
  rewrite getnum_two by lia. cbn [mbind option_bind].
  rewrite skip_literal. cbn [mbind option_bind].
  rewrite getnum_two by lia. cbn [mbind option_bind].
  rewrite in_bounds_ok by done. cbn [mbind option_bind].
  rewrite skip_literal. cbn [mbind option_bind].
  rewrite getnum_two by lia. cbn [mbind option_bind].
  rewrite in_bounds_ok by done. cbn [mbind option_bind].
  rewrite skip_literal. cbn [mbind option_bind].
  replace (two_digits (second t) +:+ "Z")
    with (two_digits (second t) +:+ ("Z" +:+ "")) by done.
  rewrite getnum_two by lia. cbn [mbind option_bind].
  rewrite in_bounds_ok by done. cbn [mbind option_bind].
  cbn. rewrite in_bounds_ok by done. done.
Qed.

Lemma Format_chardata t :
  valid_time t -> sforall is_chardata (Format t) = true.
Proof.
  intros Ht. rewrite (Format_eq t Ht). unfold four_digits, two_digits.
  cbn [String.append sforall]. rewrite !digit_char_chardata. reflexivity.
Qed.

(** The instant read back is later than the instant written by the offset
    of the location: the same second exactly for a time in UTC. *)
Lemma Unix_as_written t : Unix (as_written t) = Unix t + zoneOffset t.
Proof. unfold Unix. simpl. lia. Qed.

(** *** The tokens of the document *)

Lemma lex_text buf txt rest :
  sforall is_chardata txt = true ->
  lex (InText buf) (txt +:+ rest) = lex (InText (buf +:+ txt)) rest.
Proof.
  revert buf. induction txt as [|c txt IH]; intros buf Htxt.
  - by rewrite append_empty_r.
  - apply andb_true_iff in Htxt as [Hc Htxt].
    change (String c txt +:+ rest) with (String c (txt +:+ rest)).
    cbn [lex lex_step]. rewrite Hc.
    replace (Ascii.eqb c "<"%char) with false.
    + cbn [app]. rewrite IH by done. unfold snoc. by rewrite append_assoc.
    + symmetry. apply Ascii.eqb_neq. intros ->. done.
Qed.

Lemma lex_app m p rest :
  lex m (p +:+ rest) = fst (lex_prefix m p) ++ lex (snd (lex_prefix m p)) rest.
Proof.
  revert m. induction p as [|c p IH]; intros m; [done|].
  change (String c p +:+ rest) with (String c (p +:+ rest)).
  cbn [lex lex_prefix]. destruct (lex_step m c) as [out m'].
  rewrite IH. destruct (lex_prefix m' p) as [out' m'']. cbn [fst snd].
  by rewrite app_assoc.
Qed.

Lemma lex_const m p toks m' rest :
  lex_prefix m p = (toks, m') -> lex m (p +:+ rest) = toks ++ lex m' rest.
Proof. intros Hp. by rewrite lex_app, Hp. Qed.

Lemma lex_item_text fp b1 dt b2 rest :
  sforall is_chardata fp = true -> sforall is_chardata b1 = true ->
  sforall is_chardata dt = true -> sforall is_chardata b2 = true ->
  lex (InText "")
    ("<key>" +:+ fp +:+ "</key>" +:+ "<dict>"
     +:+ "<key>issuerName</key><data>" +:+ b1 +:+ "</data>"
     +:+ "<key>modDate</key><date>" +:+ dt +:+ "</date>"
     +:+ "<key>serialNumber</key><data>" +:+ b2 +:+ "</data>"
     +:+ "</dict>" +:+ rest)
  = item_tokens fp b1 dt b2 ++ lex (InText "") rest.
Proof.
  intros Hfp Hb1 Hdt Hb2. unfold item_tokens.
  rewrite (lex_const (InText "") "<key>" [StartElement "key"] (InText ""))
    by reflexivity.
  rewrite (lex_text "" fp) by done.
  rewrite (lex_const (InText ("" +:+ fp)) "</key>"
             (text_token fp ++ [EndElement "key"]) (InText ""))
    by reflexivity.
  rewrite (lex_const (InText "") "<dict>" [StartElement "dict"] (InText ""))
    by reflexivity.
  rewrite (lex_const (InText "") "<key>issuerName</key><data>"
             [StartElement "key"; CharData "issuerName"; EndElement "key";
              StartElement "data"] (InText ""))
    by reflexivity.
  rewrite (lex_text "" b1) by done.
  rewrite (lex_const (InText ("" +:+ b1)) "</data>"
             (text_token b1 ++ [EndElement "data"]) (InText ""))
    by reflexivity.
  rewrite (lex_const (InText "") "<key>modDate</key><date>"
             [StartElement "key"; CharData "modDate"; EndElement "key";
              StartElement "date"] (InText ""))
    by reflexivity.
  rewrite (lex_text "" dt) by done.
  rewrite (lex_const (InText ("" +:+ dt)) "</date>"
             (text_token dt ++ [EndElement "date"]) (InText ""))
    by reflexivity.
  rewrite (lex_const (InText "") "<key>serialNumber</key><data>"
             [StartElement "key"; CharData "serialNumber"; EndElement "key";
              StartElement "data"] (InText ""))
    by reflexivity.
  rewrite (lex_text "" b2) by done.
  rewrite (lex_const (InText ("" +:+ b2)) "</data>"
             (text_token b2 ++ [EndElement "data"]) (InText ""))
    by reflexivity.
  rewrite (lex_const (InText "") "</dict>" [EndElement "dict"] (InText ""))
    by reflexivity.
  rewrite <- !app_assoc. reflexivity.
Qed.

(** *** Decoding the tokens *)

Lemma dec_item fp b1 dt b2 d stk ts :
  fold_left dec_step (item_tokens fp b1 dt b2 ++ ts) (Open (FDict "dict" d :: stk))
  = fold_left dec_step ts (Open (FDict "dict" (add_item fp b1 dt b2 d) :: stk)).
Proof. destruct fp, b1, dt, b2; reflexivity. Qed.

Section Codec.
Context `{CertTools}.

Lemma toXml_eq t : toXml t = header +:+ concat_items t +:+ footer.
Proof.
  unfold toXml. f_equal.
  enough (forall acc,
    fold_left (fun out it => out +:+ item_xml it) t acc = acc +:+ concat_items t)
    as -> by done.
  induction t as [|it t IH]; intros acc; cbn [fold_left concat_items].
  - by rewrite append_empty_r.
  - by rewrite IH, append_assoc.
Qed.

Lemma item_xml_eq it rest :
  item_xml it +:+ rest
  = "<key>" +:+ ToUpper (sha1Fingerprint it) +:+ "</key>" +:+ "<dict>"
    +:+ "<key>issuerName</key><data>" +:+ written_issuer it +:+ "</data>"
    +:+ "<key>modDate</key><date>" +:+ Format (modDate it) +:+ "</date>"
    +:+ "<key>serialNumber</key><data>" +:+ written_serial it +:+ "</data>"
    +:+ "</dict>" +:+ rest.
Proof.
  unfold item_xml, itemEnd, written_issuer, written_serial.
  by rewrite !append_assoc.
Qed.

Lemma base64_chardata bs : sforall is_chardata (Base64.EncodeToString bs) = true.
Proof.
  apply (sforall_impl base64_text); [|apply EncodeToString_text].
  intros c [[_ Hc]%andb_true_iff _]%andb_true_iff. done.
Qed.

Lemma run_items t d stk rest :
  Forall plain_item t ->
  fold_left dec_step (lex (InText "") (concat_items t +:+ rest))
    (Open (FDict "dict" d :: stk))
  = fold_left dec_step (lex (InText "") rest)
      (Open (FDict "dict" (add_items t d) :: stk)).
Proof.
  intros Ht. revert d. induction Ht as [|it t [Hfp Htime] Ht IH]; intros d.
  - reflexivity.
  - cbn [concat_items add_items fold_left].
    rewrite append_assoc, item_xml_eq.
    rewrite lex_item_text;
      [|by apply ToUpper_hex_chardata|apply base64_chardata
       |by apply Format_chardata|apply base64_chardata].
    rewrite dec_item. apply IH.
Qed.

Lemma Decode_toXml t :
  Forall plain_item t ->
  Xml.Decode (toXml t)
  = Ok (Plist (Some (Dict [] [] (Some (add_items t emptyDict))
                       [Integer true] [Key "trustList"; Key "trustVersion"]))).
Proof.
  intros Ht. unfold Xml.Decode, tokens. rewrite toXml_eq.
  rewrite (lex_const (InText "") header
             [StartElement "plist"; StartElement "dict"; StartElement "key";
              CharData "trustList"; EndElement "key"; StartElement "dict"]
             (InText "")) by reflexivity.
  rewrite fold_left_app.
  change (fold_left dec_step _ Prolog)
    with (Open [FDict "dict" emptyDict;
                FDict "dict" (Dict [] [] None [] [Key "trustList"]);
                FPlist "plist" (Plist None)]).
  rewrite run_items by done.
  reflexivity.
Qed.

Lemma add_items_cons it t d :
  add_items (it :: t) d
  = add_items t (add_item (ToUpper (sha1Fingerprint it)) (written_issuer it)
                   (Format (modDate it)) (written_serial it) d).
Proof. reflexivity. Qed.

Lemma ChiKey_add_items t d :
  ChiKey (add_items t d) = ChiKey d ++ written_keys t.
Proof.
  revert d. induction t as [|it t IH]; intros d.
  - simpl. by rewrite app_nil_r.
  - rewrite add_items_cons, IH. simpl. by rewrite <- app_assoc.
Qed.

Lemma ChiDict_add_items it t d :
  let m := default emptyDict (ChiDict d) in
  ChiDict (add_items (it :: t) d)
  = Some (Dict (ChiData m ++ written_data (it :: t))
               (ChiDate m ++ written_dates (it :: t))
               (ChiDict m) (ChiInteger m)
               (ChiKey m ++ written_inner_keys (it :: t))).
Proof.
  revert it d. induction t as [|it' t IH]; intros it d m.
  - subst m. simpl. by rewrite <- !app_assoc.
  - rewrite add_items_cons, IH. subst m. simpl. by rewrite <- !app_assoc.
Qed.

Lemma length_written_data t : length (written_data t) = (2 * length t)%nat.
Proof.
  induction t as [|it t IH]; [done|].
  unfold written_data in *. rewrite bind_cons. simpl. rewrite IH. lia.
Qed.

Lemma items_of_written t :
  items_of (written_keys t) (written_dates t) (written_data t)
  = (fun it => convert_item (Key (ToUpper (sha1Fingerprint it)))
                 (Data (written_issuer it)) (Data (written_serial it))
                 (Date (Format (modDate it)))) <$> t.
Proof.
  induction t as [|it t IH]; [done|].
  unfold written_keys, written_dates, written_data in *.
  rewrite !fmap_cons, bind_cons. simpl. by rewrite IH.
Qed.

Lemma convert_item_written it :
  well_formed it ->
  convert_item (Key (ToUpper (sha1Fingerprint it)))
    (Data (written_issuer it)) (Data (written_serial it))
    (Date (Format (modDate it)))
  = read_back it.
Proof.
  intros [Hfp (bs & rdn & Hm & Hu & Hfill) Htime].
  unfold convert_item, read_back, written_issuer, written_serial.
  cbn [keyText dataText dateText].
  rewrite !strip_base64_text by apply EncodeToString_text.
  rewrite !DecodeString_EncodeToString. cbn [fst].
  rewrite Hm. cbn [from_option id]. rewrite Hu, Hfill.
  rewrite ParseInLocation_Format by done.
  by rewrite ToLower_ToUpper_hex.
Qed.

Lemma well_formed_plain it : well_formed it -> plain_item it.
Proof. intros [Hfp _ Htime]. by split. Qed.

(** Reading back a snapshot of at least one well-formed record. *)
Lemma ParseSnapshot_toXml t :
  t ≠ [] -> Forall well_formed t ->
  ParseSnapshot (toXml t) = Ok (read_back <$> t).
Proof.
  intros Hne Hwf. unfold ParseSnapshot, parsePlist.
  rewrite Decode_toXml
    by (eapply Forall_impl; [exact Hwf|]; apply well_formed_plain).
  cbn [obind]. destruct t as [|it t]; [done|].
  erewrite (ParseFacts.convertToTrustItems_ok _ _ _ (length (it :: t)));
    [|reflexivity|apply (ChiDict_add_items it t emptyDict)|..].
  - rewrite ChiKey_add_items. cbn [ChiKey ChiDate ChiData emptyDict default ChiDict app].
    rewrite items_of_written. f_equal.
    apply Forall_fmap_ext_1. eapply Forall_impl; [exact Hwf|].
    intros it' Hit'. by apply convert_item_written.
  - cbn [ChiData emptyDict default ChiDict app]. apply length_written_data.
  - rewrite ChiKey_add_items. cbn [ChiKey emptyDict app].
    unfold written_keys. by rewrite length_fmap.
  - cbn [ChiDate emptyDict default ChiDict app].
    unfold written_dates. by rewrite length_fmap.
Qed.

(** With no record the dictionary of the trust list is written empty:
    the dictionary below it is never created, and reading panics. *)
Lemma ParseSnapshot_toXml_nil :
  ParseSnapshot (toXml []) = Panic nil_dereference.
Proof. reflexivity. Qed.

(** C1 (the code departs from the claim). A snapshot of one or more
    well-formed records is read back with the same fingerprints, issuer
    names and serial numbers, in the same order, and with the calendar
    fields of each modification time; but these are written in the location
    of the time and read as UTC, so that the time read back is later by the
    offset of that location (the same second only for a time in UTC), and
    for the snapshot without records reading what was written panics. *)
Theorem snapshot_round_trip :
  ParseSnapshot (toXml []) = Panic nil_dereference
  /\ (forall t, t ≠ [] -> Forall well_formed t ->
        ParseSnapshot (toXml t) = Ok (read_back <$> t))
  /\ (forall it,
        sha1Fingerprint (read_back it) = sha1Fingerprint it
        /\ issuerName (read_back it) = issuerName it
        /\ serialNumber (read_back it) = serialNumber it
        /\ Unix (modDate (read_back it))
           = Unix (modDate it) + zoneOffset (modDate it)
        /\ (sameSecond (modDate (read_back it)) (modDate it)
            <-> zoneOffset (modDate it) = 0)).
Proof.
  split; [apply ParseSnapshot_toXml_nil|]. split; [apply ParseSnapshot_toXml|].
  intros it. repeat split; try done.
  - apply Unix_as_written.
  - unfold sameSecond. cbn [read_back modDate]. rewrite Unix_as_written. lia.
  - unfold sameSecond. cbn [read_back modDate]. rewrite Unix_as_written. lia.
Qed.

End Codec.

Import Example.

Lemma snapshot_round_trip_witness :
  [record_local] ≠ []
  /\ Forall well_formed [record_local]
  /\ ParseSnapshot (toXml [record_local]) = Ok [read_back record_local]
  /\ Unix (modDate (read_back record_local))
     = Unix (modDate record_local) + 3600
  /\ ParseSnapshot (toXml []) = Panic nil_dereference.
Proof.
  assert (Forall well_formed [record_local]) as Hwf.
  { apply Forall_singleton. split.
    - reflexivity.
    - eexists _, _. repeat split; reflexivity.
    - split; vm_compute; split; discriminate. }
  destruct (@snapshot_round_trip lib) as (Hnil & Htrip & Hfields).
  split; [done|]. split; [exact Hwf|].
  split; [exact (Htrip [record_local] ltac:(done) Hwf)|].
  split; [|exact Hnil].
  by destruct (Hfields record_local) as (_ & _ & _ & -> & _).
Defined.

End CodecFacts.

(** * Further properties *)

(** ** Keep: composition, size and when it keeps duplicates out *)

Module KeepMore.
Import Certs.

Section Keep.
Context `{CertTools}.
Context {WhitelistItem : Type} (Matches : WhitelistItem -> Certificate -> bool).

Abbreviation Keep := (Keep Matches).

Abbreviation matching_items := (matching_items Matches).

(** X1. The certificates are filtered one after the other: what [Keep]
    returns for two lists put end to end is what it returns for the first
    followed by what it returns for the second. *)
Theorem Keep_app (a b : list (option Certificate)) (wl : list WhitelistItem) :
  Keep (a ++ b) wl = Keep a wl ++ Keep b wl.
Proof. rewrite !(KeepFacts.Keep_bind Matches). apply bind_app. Qed.

Lemma Keep_cons inc certs wl :
  Keep (inc :: certs) wl = matches_of Matches inc wl ++ Keep certs wl.
Proof. rewrite !(KeepFacts.Keep_bind Matches). reflexivity. Qed.

Lemma length_matches_of inc wl :
  length (matches_of Matches inc wl) = matching_items wl inc.
Proof. destruct inc; simpl; [|done]. by rewrite length_fmap. Qed.

(** X2. The output has one entry for every pair of an input certificate
    and a whitelist item that matches it: its length is the sum, over the
    input, of the numbers of matching items. *)
Theorem Keep_length (certs : list (option Certificate)) (wl : list WhitelistItem) :
  length (Keep certs wl) = sum_list (matching_items wl <$> certs).
Proof.
  induction certs as [|inc certs IH]; [done|].
  rewrite Keep_cons, length_app, length_matches_of, IH. done.
Qed.

Lemma filter_none {A} (P : A -> Prop) `{!forall x, Decision (P x)} (l : list A) :
  (forall y, y ∈ l -> ~ P y) -> filter P l = [].
Proof.
  induction l as [|x l IH]; intros Hno; [done|].
  rewrite filter_cons, decide_False by (apply Hno; by left).
  apply IH. intros y Hy. apply Hno. by right.
Qed.

Lemma sublist_omap_fingerprints (l k : list (option Certificate)) :
  sublist l k -> sublist (fingerprints l) (fingerprints k).
Proof.
  induction 1 as [|x l k _ IH|x l k _ IH]; [done|..].
  - destruct x as [c|]; simpl; [by apply sublist_skip|done].
  - destruct x as [c|]; simpl; [by apply sublist_cons|done].
Qed.

Lemma filter_at_most_one {A} (P : A -> Prop) `{!forall x, Decision (P x)}
    (l : list A) :
  (forall i j x y, l !! i = Some x -> l !! j = Some y -> P x -> P y -> i = j) ->
  (length (filter P l) <= 1)%nat.
Proof.
  induction l as [|x l IH]; intros Hone; [simpl; lia|].
  rewrite filter_cons. destruct (decide (P x)) as [Hx|Hx].
  - assert (filter P l = []) as ->; [|simpl; lia].
    apply filter_none. intros y Hy Hpy.
    apply list_elem_of_lookup in Hy as [k Hk].
    specialize (Hone 0%nat (S k) x y eq_refl Hk Hx Hpy). discriminate.
  - apply IH. intros i j y z Hi Hj Hy Hz.
    specialize (Hone (S i) (S j) y z Hi Hj Hy Hz). lia.
Qed.

(** X3. When no certificate of the input is matched by two items of the
    whitelist, [Keep] returns a sublist of its input: it repeats nothing,
    and the fingerprints of its output are distinct when those of the input
    are. *)
Theorem Keep_sublist_when_items_disjoint (certs : list (option Certificate))
    (wl : list WhitelistItem) :
  (forall c i j w1 w2,
     Some c ∈ certs -> wl !! i = Some w1 -> wl !! j = Some w2 ->
     Matches w1 c = true -> Matches w2 c = true -> i = j) ->
  sublist (Keep certs wl) certs
  /\ (NoDup (fingerprints certs) -> NoDup (fingerprints (Keep certs wl))).
Proof.
  intros Hone.
  assert (sublist (Keep certs wl) certs) as Hsub.
  { induction certs as [|inc certs IH]; [done|].
    rewrite Keep_cons.
    assert (sublist (Keep certs wl) certs) as IH'.
    { apply IH. intros c i j w1 w2 Hc. apply Hone. by right. }
    destruct inc as [c|]; simpl; [|by apply sublist_cons].
    pose proof (filter_at_most_one (fun wh => Matches wh c = true) wl) as Hle.
    destruct (filter (fun wh => Matches wh c = true) wl) as [|w [|w' ws]].
    - by apply sublist_cons.
    - by apply sublist_skip.
    - exfalso. assert (2 <= 1)%nat; [|lia].
      etrans; [|apply Hle]; [simpl; lia|].
      intros i j x y. apply Hone. by left. }
  split; [done|]. intros Hnd.
  pose proof (sublist_omap_fingerprints _ _ Hsub) as Hs.
  by eapply sublist_NoDup.
Qed.

End Keep.

Import Example.

Lemma Keep_sublist_when_items_disjoint_witness :
  let c1 := mkcert x01 "Example CA" 1 in
  let c2 := mkcert x02 "Other CA" 2 in
  let wl := [HexFingerprint "01"; IssuerCommonName "Other CA"] in
  sublist (Certs.Keep item_matches [Some c1; None; Some c2] wl)
    [Some c1; None; Some c2]
  /\ NoDup (fingerprints (Certs.Keep item_matches [Some c1; None; Some c2] wl)).
Proof.
  intros c1 c2 wl.
  destruct (Keep_sublist_when_items_disjoint item_matches
              [Some c1; None; Some c2] wl) as [Hsub Hnd].
  - intros c i j w1 w2 Hc Hi Hj H1 H2.
    destruct i as [|[|i]], j as [|[|j]]; try done.
    all: injection Hi as <-; injection Hj as <-.
    all: repeat (apply elem_of_cons in Hc as [Hc|Hc];
                 [try discriminate Hc; injection Hc as ->; discriminate|]).
    all: exact (False_ind _ (not_elem_of_nil _ Hc)).
  - split; [exact Hsub|]. apply Hnd.
    refine (bool_decide_unpack _ _). vm_compute. exact I.
Defined.

End KeepMore.


(** ** The store: the file system, and how the operations compose *)

Module StoreMore.
Import GoStrings GoTime Xml Store.

Section Darwin.
Context `{CertTools}.
Context (h : Host).
Context (SortFileInfos : list FileInfo -> list FileInfo).

Abbreviation Restore := (Restore h SortFileInfos).
Abbreviation Remove := (Remove h SortFileInfos).

Abbreviation import_outcome := (import_outcome h).

(** X4. [Backup] changes nothing on disk besides its temporary file and
    the backup it writes: every other path holds what it held. *)
Theorem Backup_frame (fs : FS) (p : string) :
  (forall name, TempFile h "trust-settings" = Success name -> p ≠ name) ->
  (forall dir, getCertManageDir h = Success dir ->
     p ≠ filepath_Join dir (backup_filename h)) ->
  fst (Backup h fs) !! p = fs !! p.
Proof.
  intros Htmp Hout. unfold Backup, trustSettingsExport.
  destruct (TempFile h "trust-settings") as [name|e] eqn:Ht; [|done].
  specialize (Htmp name eq_refl).
  destruct (security_trust_settings_export h name) as [content|e]; simpl.
  2: { by rewrite lookup_insert_ne. }
  destruct (getCertManageDir h) as [dir|e] eqn:Hd; simpl.
  2: { unfold os_Remove. by rewrite lookup_delete_ne, !lookup_insert_ne. }
  specialize (Hout dir eq_refl).
  destruct (os_MkdirAll h dir); simpl.
  { unfold os_Remove. by rewrite lookup_delete_ne, !lookup_insert_ne. }
  unfold file_CopyFile. rewrite lookup_insert_eq.
  destruct (write_failure h _); simpl; unfold os_Remove;
    rewrite lookup_delete_ne by done; by rewrite !lookup_insert_ne.
Qed.

(** X5. When [Backup] returns without error, the temporary file was
    created and filled by the export tool, it is gone, and the backup
    directory holds the exported bytes under the name made of the Unix
    time. *)
Theorem Backup_ok_leaves_backup (fs : FS) :
  snd (Backup h fs) = Ok tt ->
  exists name content dir,
    TempFile h "trust-settings" = Success name
    /\ security_trust_settings_export h name = Success content
    /\ getCertManageDir h = Success dir
    /\ fst (Backup h fs) !! name = None
    /\ (filepath_Join dir (backup_filename h) ≠ name ->
        fst (Backup h fs) !! filepath_Join dir (backup_filename h)
        = Some content).
Proof.
  unfold Backup, trustSettingsExport.
  destruct (TempFile h "trust-settings") as [name|e] eqn:Ht; [|done].
  destruct (security_trust_settings_export h name) as [content|e] eqn:He;
    [|done]. simpl.
  destruct (getCertManageDir h) as [dir|e] eqn:Hd; [|done]. simpl.
  destruct (os_MkdirAll h dir); [done|].
  unfold file_CopyFile. rewrite lookup_insert_eq.
  destruct (write_failure h _); [done|]. simpl. intros _.
  exists name, content, dir. repeat split; try done.
  - unfold os_Remove. by rewrite lookup_delete_eq.
  - intros Hne. unfold os_Remove. rewrite lookup_delete_ne by done.
    by rewrite lookup_insert_eq.
Qed.

(** X6. [List] leaves the disk as it found it, apart from the temporary
    file of the export: every other path holds what it held, and when the
    dump of the installed certificates has been read and the export tool
    succeeds, the temporary file is gone, whatever reading it gives. *)
Theorem List_file_system (fs : FS) :
  (forall p,
     (forall name, TempFile h "trust-settings" = Success name -> p ≠ name) ->
     fst (List h fs) !! p = fs !! p)
  /\ (forall installed name content,
        readInstalledCerts h systemDirs = Success installed ->
        TempFile h "trust-settings" = Success name ->
        security_trust_settings_export h name = Success content ->
        fst (List h fs) !! name = None).
Proof.
  split.
  - intros p Htmp. unfold List.
    destruct (readInstalledCerts h systemDirs); [|done].
    unfold getCertsWithTrustPolicy, trustSettingsExport.
    destruct (TempFile h "trust-settings") as [name|e] eqn:Ht; [|done].
    specialize (Htmp name eq_refl).
    destruct (security_trust_settings_export h name); simpl.
    + unfold os_Remove. by rewrite lookup_delete_ne, !lookup_insert_ne.
    + by rewrite lookup_insert_ne.
  - intros installed name content Hread Ht He. unfold List. rewrite Hread.
    unfold getCertsWithTrustPolicy, trustSettingsExport. rewrite Ht, He.
    simpl. unfold os_Remove. by rewrite lookup_delete_eq.
Qed.

(** Given a path that is on disk, [Restore] runs the import tool on it
    and returns what the tool returns. *)
Lemma Restore_runs_import (fs : FS) (where_ : string) :
  where_ ≠ "" -> is_Some (fs !! where_) ->
  Restore where_ fs = import_outcome where_.
Proof.
  intros Hne Hex. unfold Store.Restore, restore_point.
  rewrite !(proj2 (String.eqb_neq _ _) Hne).
  unfold file_Exists.
  rewrite bool_decide_eq_true_2 by done. reflexivity.
Qed.

(** X7. A backup that succeeded can be restored by its path: the copy
    is on disk when [Backup] returns, so [Restore] does not fail for a
    missing file, runs the import tool on the copy and returns what the
    tool returns. *)
Theorem Backup_then_Restore (fs : FS) (dir : string) :
  snd (Backup h fs) = Ok tt ->
  getCertManageDir h = Success dir ->
  filepath_Join dir (backup_filename h) ≠ "" ->
  (forall name, TempFile h "trust-settings" = Success name ->
     filepath_Join dir (backup_filename h) ≠ name) ->
  Restore (filepath_Join dir (backup_filename h)) (fst (Backup h fs))
  = import_outcome (filepath_Join dir (backup_filename h)).
Proof.
  intros Hok Hd Hne Htmp.
  apply Restore_runs_import; [done|].
  revert Hok. unfold Backup, trustSettingsExport. rewrite Hd.
  destruct (TempFile h "trust-settings") as [name|e] eqn:Ht; [|done].
  specialize (Htmp name eq_refl).
  destruct (security_trust_settings_export h name) as [content|e]; [|done].
  simpl. destruct (os_MkdirAll h dir); [done|].
  unfold file_CopyFile. rewrite lookup_insert_eq.
  destruct (write_failure h _); [done|]. simpl. intros _.
  unfold os_Remove. rewrite lookup_delete_ne by done.
  by rewrite lookup_insert_eq.
Qed.

(** X8. Once [List] has returned the installed certificates, [Remove]
    panics if its temporary file cannot be created (the name of the nil
    file is asked for when its removal is deferred); otherwise it returns
    the error of the write, or else what the import tool returns for the
    temporary file, and in both cases the temporary file is gone. *)
Theorem Remove_outcome (wh : option Certificate -> bool) (fs fs1 : FS)
    (certs : list (option Certificate)) :
  List h fs = (fs1, Ok certs) ->
  (forall e, TempFile h "cert-manage" = Failure e ->
     snd (Remove wh fs) = Panic nil_dereference)
  /\ (forall name, TempFile h "cert-manage" = Success name -> name ≠ "" ->
        fst (Remove wh fs) !! name = None
        /\ snd (Remove wh fs)
           = match write_failure h name with
             | Some e => Err e
             | None => import_outcome name
             end).
Proof.
  intros HList. split.
  - intros e Ht. unfold Store.Remove. by rewrite HList, Ht.
  - intros name Ht Hne. unfold Store.Remove. rewrite HList, Ht.
    unfold toXmlFile, ioutil_WriteFile.
    destruct (write_failure h name) as [e|]; simpl.
    + split; [|done]. unfold os_Remove. by rewrite lookup_delete_eq.
    + split; [unfold os_Remove; by rewrite lookup_delete_eq|].
      apply Restore_runs_import; [done|]. by rewrite lookup_insert_eq.
Qed.

(** *** Serial numbers *)

Lemma SetBytes_acc (l : list byte) (a : Z) :
  fold_left (fun acc b => acc * 256 + Z.of_N (Byte.to_N b)) l a
  = a * 256 ^ Z.of_nat (length l) + big_SetBytes l.
Proof.
  unfold big_SetBytes. revert a. induction l as [|b l IH]; intros a.
  - simpl. lia.
  - cbn [fold_left length]. rewrite IH, (IH (0 * 256 + _)).
    rewrite Nat2Z.inj_succ, Z.pow_succ_r by lia. lia.
Qed.

Lemma SetBytes_cons (b : byte) (l : list byte) :
  big_SetBytes (b :: l)
  = Z.of_N (Byte.to_N b) * 256 ^ Z.of_nat (length l) + big_SetBytes l.
Proof.
  unfold big_SetBytes at 1. cbn [fold_left]. rewrite SetBytes_acc. lia.
Qed.

Lemma to_N_byte_of_N (m : N) :
  (m < 256)%N -> Byte.to_N (Base64.byte_of_N m) = m.
Proof.
  intros Hm. unfold Base64.byte_of_N. apply Byte.to_of_N.
  rewrite byte_of_ascii_via_N. by rewrite N_ascii_embedding.
Qed.

Lemma be_bytes_value (fuel : nat) (n : N) (acc : list byte) :
  (n < 2 ^ N.of_nat fuel)%N ->
  big_SetBytes (be_bytes fuel n acc)
  = Z.of_N n * 256 ^ Z.of_nat (length acc) + big_SetBytes acc.
Proof.
  revert n acc. induction fuel as [|fuel IH]; intros n acc Hn.
  - simpl in *. assert (n = 0%N) as -> by lia. lia.
  - cbn [be_bytes]. destruct (N.eqb_spec n 0) as [->|Hn0]; [lia|].
    rewrite Nat2N.inj_succ, N.pow_succ_r' in Hn.
    assert (n / 256 < 2 ^ N.of_nat fuel)%N as Hdiv.
    { revert Hn. generalize (2 ^ N.of_nat fuel)%N. intros P HP.
      zify; Z.to_euclidean_division_equations; lia. }
    rewrite (IH _ _ Hdiv). cbn [length]. rewrite SetBytes_cons.
    rewrite to_N_byte_of_N by (by apply N.mod_lt).
    rewrite Nat2Z.inj_succ, Z.pow_succ_r by lia.
    generalize (256 ^ Z.of_nat (length acc)). intros P.
    assert (Z.of_N n = 256 * Z.of_N (n / 256) + Z.of_N (n mod 256)) as ->
      by (zify; Z.to_euclidean_division_equations; lia).
    lia.
Qed.

(** X9. The serial number of the record made from a certificate, read
    with [Serial], is the absolute value of the serial number of the
    certificate: [Bytes] and [SetBytes] undo each other, and the sign is not
    kept. *)
Theorem Serial_of_certificate (cert : Certificate) :
  Serial (trustItemFromCertificate h cert) = Z.abs (SerialNumber cert).
Proof.
  unfold Serial, trustItemFromCertificate, big_Bytes. cbn [serialNumber].
  set (n := Z.abs_N (SerialNumber cert)).
  rewrite be_bytes_value.
  - change (256 ^ Z.of_nat (length (@nil byte))) with 1.
    change (big_SetBytes []) with 0. subst n. rewrite N2Z.inj_abs_N. lia.
  - destruct (N.eqb_spec n 0) as [->|Hn0]; [done|].
    rewrite Nat2N.inj_succ, N2Nat.id.
    apply N.log2_spec. lia.
Qed.

(** *** The certificates read from the dump *)

Lemma fold_add_installed_fresh (l res : list Certificate) :
  NoDup (Signature <$> (res ++ l)) ->
  fold_left add_installed (Some <$> l) res = res ++ l.
Proof.
  revert res. induction l as [|c l IH]; intros res Hnd.
  - simpl. by rewrite app_nil_r.
  - rewrite fmap_cons. cbn [fold_left add_installed].
    replace (existsb _ res) with false.
    + rewrite IH; rewrite <- app_assoc; done.
    + symmetry. apply not_true_is_false. intros Hex.
      apply ListFacts.existsb_signature in Hex.
      rewrite fmap_app, fmap_cons in Hnd.
      apply NoDup_app in Hnd as (_ & Hdisj & _).
      apply (Hdisj _ Hex). by left.
Qed.

(** X10. Reading the installed certificates once more from what was
    read changes nothing: the list without repeated signatures is kept as
    it is. *)
Theorem installed_certs_idempotent (cs : list (option Certificate)) :
  installed_certs (Some <$> installed_certs cs) = installed_certs cs.
Proof.
  unfold installed_certs at 1.
  rewrite fold_add_installed_fresh; [done|].
  simpl. apply ListFacts.fold_add_installed_NoDup. simpl. apply NoDup_nil_2.
Qed.

Lemma fold_add_installed_sublist (cs : list (option Certificate))
    (res : list Certificate) :
  exists k, fold_left add_installed cs res = res ++ k
            /\ sublist (Some <$> k) cs.
Proof.
  revert res. induction cs as [|c cs IH]; intros res.
  - exists []. simpl. by rewrite app_nil_r.
  - cbn [fold_left]. destruct c as [c|]; simpl.
    + destruct (existsb _ res).
      * destruct (IH res) as (k & -> & Hk). exists k. split; [done|].
        by apply sublist_cons.
      * destruct (IH (res ++ [c])) as (k & -> & Hk). exists (c :: k).
        split; [by rewrite <- app_assoc|]. by apply sublist_skip.
    + destruct (IH res) as (k & -> & Hk). exists k. split; [done|].
      by apply sublist_cons.
Qed.

(** X11. The installed certificates are returned in the order of the
    dump: the result is the dump with some entries left out (the nil ones
    and the later ones of a signature already seen). *)
Theorem installed_certs_in_dump_order (cs : list (option Certificate)) :
  sublist (Some <$> installed_certs cs) cs.
Proof.
  destruct (fold_add_installed_sublist cs []) as (k & Hk & Hsub).
  unfold installed_certs. by rewrite Hk.
Qed.

End Darwin.

(** *** The names of the backups *)

Lemma string_length_app (a b : string) :
  String.length (a +:+ b) = (String.length a + String.length b)%nat.
Proof.
  induction a as [|c a IH]; [done|].
  change (S (String.length (a +:+ b)) = S (String.length a + String.length b)).
  by rewrite IH.
Qed.

Lemma append_inj_r (a b c : string) : a +:+ c = b +:+ c -> a = b.
Proof.
  revert b. induction a as [|x a IH]; intros [|y b] Heq; [done|..].
  - apply (f_equal String.length) in Heq.
    rewrite !string_length_app in Heq. cbn [String.length] in Heq. lia.
  - apply (f_equal String.length) in Heq.
    rewrite !string_length_app in Heq. cbn [String.length] in Heq. lia.
  - change (String x (a +:+ c) = String y (b +:+ c)) in Heq.
    injection Heq as -> Heq. f_equal. by apply IH.
Qed.

Lemma decimal_value_app (a b : string) (acc : N) :
  Codec.decimal_value (a +:+ b) acc
  = Codec.decimal_value b (Codec.decimal_value a acc).
Proof.
  revert acc. induction a as [|c a IH]; intros acc; [done|].
  change (String c a +:+ b) with (String c (a +:+ b)).
  cbn [Codec.decimal_value]. apply IH.
Qed.

Lemma digit_char_value (n : N) :
  (N_of_ascii (digit_char n) - 48 = n mod 10)%N
  /\ is_digit (digit_char n) = true.
Proof.
  assert (n mod 10 < 10)%N as Hlt by (by apply N.mod_lt).
  unfold digit_char, is_digit, in_range.
  revert Hlt. generalize (n mod 10)%N. intros m Hm.
  rewrite N_ascii_embedding by lia. split; [lia|].
  apply andb_true_iff. split; apply N.leb_le; lia.
Qed.

(** The digits of a number: one at least, all decimal, and the number is
    their value. *)
Lemma digits_fuel_spec (fuel : nat) (n : N) (s : string) :
  (n < 2 ^ N.of_nat fuel)%N -> (1 <= fuel)%nat ->
  exists d c d',
    digits_fuel fuel n s = d +:+ s /\ d = String c d'
    /\ is_digit c = true
    /\ Codec.decimal_value d 0 = n.
Proof.
  revert n s. induction fuel as [|fuel IH]; intros n s Hn Hfuel; [lia|].
  cbn [digits_fuel]. destruct (digit_char_value n) as [Hval Hdig].
  destruct (N.ltb_spec n 10) as [Hlt|Hge].
  - exists (String (digit_char n) ""), (digit_char n), "".
    repeat split; [done|]. cbn [Codec.decimal_value]. rewrite Hval.
    rewrite N.mod_small by done. lia.
  - rewrite Nat2N.inj_succ, N.pow_succ_r' in Hn.
    assert (n / 10 < 2 ^ N.of_nat fuel)%N as Hdiv.
    { revert Hn. generalize (2 ^ N.of_nat fuel)%N. intros P HP.
      zify; Z.to_euclidean_division_equations; lia. }
    assert (1 <= fuel)%nat as Hfuel'.
    { destruct fuel; [|lia]. simpl in Hdiv.
      zify; Z.to_euclidean_division_equations; lia. }
    destruct (IH (n / 10)%N (String (digit_char n) s) Hdiv Hfuel')
      as (d & c & d' & -> & -> & Hc & Hd).
    exists (String c d' +:+ String (digit_char n) ""), c,
      (d' +:+ String (digit_char n) "").
    repeat split; [by rewrite CodecFacts.append_assoc|done|].
    rewrite decimal_value_app, Hd. cbn [Codec.decimal_value]. rewrite Hval.
    zify; Z.to_euclidean_division_equations; lia.
Qed.

Lemma appendInt_nonneg (x : Z) :
  0 <= x ->
  exists c d',
    appendInt x 1 = String c d' /\ is_digit c = true
    /\ Codec.decimal_value (String c d') 0 = Z.to_N x.
Proof.
  intros Hx. unfold appendInt. destruct (Z.ltb_spec x 0); [lia|].
  unfold pad_digits, digits.
  destruct (digits_fuel_spec (S (N.to_nat (N.log2 (Z.to_N x)))) (Z.to_N x) "")
    as (d & c & d' & Hd & -> & Hc & Hval).
  - destruct (N.eqb_spec (Z.to_N x) 0) as [->|Hn0]; [done|].
    rewrite Nat2N.inj_succ, N2Nat.id. apply N.log2_spec. lia.
  - lia.
  - rewrite Hd, CodecFacts.append_empty_r.
    exists c, d'. repeat split; done.
Qed.

Lemma appendInt_inj (x y : Z) : appendInt x 1 = appendInt y 1 -> x = y.
Proof.
  assert (forall x y, 0 <= x -> 0 <= y ->
            appendInt x 1 = appendInt y 1 -> x = y) as Hpos.
  { intros a b Ha Hb Heq.
    destruct (appendInt_nonneg a Ha) as (c & d & Ea & _ & Va).
    destruct (appendInt_nonneg b Hb) as (c' & d' & Eb & _ & Vb).
    rewrite Ea, Eb in Heq. rewrite Heq in Va. lia. }
  assert (forall x, x < 0 ->
            appendInt x 1 = String "-" (appendInt (- x) 1)) as Hneg.
  { intros a Ha. unfold appendInt.
    destruct (Z.ltb_spec a 0); [|lia].
    destruct (Z.ltb_spec (- a) 0); [lia|]. done. }
  assert (forall x y, x < 0 -> 0 <= y -> appendInt x 1 ≠ appendInt y 1)
    as Hmixed.
  { intros a b Ha Hb Heq. rewrite (Hneg a Ha) in Heq.
    destruct (appendInt_nonneg b Hb) as (c & d & Eb & Hc & _).
    rewrite Eb in Heq. injection Heq as <- _. done. }
  intros Heq.
  destruct (Z.lt_ge_cases x 0) as [Hx|Hx], (Z.lt_ge_cases y 0) as [Hy|Hy].
  - rewrite (Hneg x Hx), (Hneg y Hy) in Heq. injection Heq as Heq.
    apply Hpos in Heq; lia.
  - by destruct (Hmixed x y Hx Hy).
  - by destruct (Hmixed y x Hy Hx).
  - by apply Hpos.
Qed.

(** X12. Two backups get the same file name exactly when they are taken
    in the same second: the name determines the Unix time it is made of. *)
Theorem backup_filename_inj (h1 h2 : Host) :
  backup_filename h1 = backup_filename h2
  <-> Unix (time_Now h1) = Unix (time_Now h2).
Proof.
  unfold backup_filename. split; [|by intros ->].
  intros Heq. apply (inj (String.append "trust-backup-")) in Heq.
  apply append_inj_r in Heq. by apply appendInt_inj.
Qed.

Import Example.

Lemma Backup_frame_witness :
  fst (Backup host01 disk_example) !! "/etc/hosts"
  = Some "127.0.0.1 localhost".
Proof.
  rewrite (Backup_frame host01 disk_example "/etc/hosts").
  - reflexivity.
  - intros name [= <-]. discriminate.
  - intros dir [= <-]. vm_compute. discriminate.
Defined.

Lemma Backup_ok_leaves_backup_witness :
  snd (Backup host01 disk_example) = Ok tt
  /\ fst (Backup host01 disk_example) !! "/tmp/trust-settings042" = None
  /\ fst (Backup host01 disk_example)
       !! "/Users/ada/Library/cert-manage/trust-backup--62135596800.xml"
     = Some (toXml policy01).
Proof.
  assert (snd (Backup host01 disk_example) = Ok tt) as Hok
    by (vm_compute; reflexivity).
  split; [exact Hok|].
  destruct (Backup_ok_leaves_backup host01 disk_example Hok)
    as (name & content & dir & Ht & He & Hd & Hgone & Hfile).
  injection Ht as <-. injection He as <-. injection Hd as <-.
  split; [exact Hgone|]. apply Hfile. vm_compute. discriminate.
Defined.

Lemma List_file_system_witness :
  fst (List host01 disk_example) !! "/etc/hosts" = Some "127.0.0.1 localhost"
  /\ fst (List host01 disk_example) !! "/tmp/trust-settings042" = None.
Proof.
  destruct (List_file_system host01 disk_example) as [Hframe Hgone].
  split.
  - rewrite Hframe; [reflexivity|]. intros name [= <-]. discriminate.
  - eapply Hgone; reflexivity.
Defined.

Lemma Backup_then_Restore_witness :
  Store.Restore host01 sort_by_time
    "/Users/ada/Library/cert-manage/trust-backup--62135596800.xml"
    (fst (Backup host01 disk_example))
  = Ok tt.
Proof.
  change "/Users/ada/Library/cert-manage/trust-backup--62135596800.xml"
    with (filepath_Join "/Users/ada/Library/cert-manage"
            (backup_filename host01)).
  rewrite (Backup_then_Restore host01 sort_by_time disk_example
             "/Users/ada/Library/cert-manage").
  - reflexivity.
  - vm_compute. reflexivity.
  - reflexivity.
  - vm_compute. discriminate.
  - intros name [= <-]. vm_compute. discriminate.
Defined.

Lemma Remove_outcome_witness :
  snd (Store.Remove host_one_temp_file sort_by_time (fun _ => true) disk_example)
  = Panic nil_dereference
  /\ snd (Store.Remove host01 sort_by_time (fun _ => true) disk_example) = Ok tt
  /\ fst (Store.Remove host01 sort_by_time (fun _ => true) disk_example)
       !! "/tmp/cert-manage042" = None.
Proof.
  assert (List host01 disk_example
          = (disk_example, Ok [Some (mkcert x01 "Example CA" 1)])) as HList
    by (vm_compute; reflexivity).
  assert (List host_one_temp_file disk_example
          = (disk_example, Ok [Some (mkcert x01 "Example CA" 1)])) as HList'
    by (vm_compute; reflexivity).
  destruct (Remove_outcome host_one_temp_file sort_by_time (fun _ => true)
              _ _ _ HList') as [Hpanic _].
  destruct (Remove_outcome host01 sort_by_time (fun _ => true) _ _ _ HList)
    as [_ Hrun].
  split; [by eapply Hpanic|].
  destruct (Hrun "/tmp/cert-manage042" eq_refl) as [Hgone Hres]; [done|].
  split; [exact Hres|exact Hgone].
Defined.

End StoreMore.


(** ** Reading the trust policy: when it succeeds and what it gives *)

Module ParseMore.
Import GoStrings GoTime Xml Store Codec.

#[local] Arguments String.append !s1 s2 : simpl nomatch.

Lemma sforall_sfilter (f : ascii -> bool) (s : string) :
  sforall f (sfilter f s) = true.
Proof.
  induction s as [|c s IH]; [done|].
  change (sforall f (if f c then String c (sfilter f s) else sfilter f s) = true).
  destruct (f c) eqn:E; [|done].
  change (f c && sforall f (sfilter f s) = true). by rewrite E, IH.
Qed.

(** X13. The expression of [convertToTrustItems] already deletes the four
    characters that the replacer applied after it deletes: the replacer
    never changes the text it is given. *)
Theorem replacer_after_expression_is_identity (s : string) :
  r2_Replace (r_ReplaceAllString s) = r_ReplaceAllString s.
Proof.
  unfold r2_Replace, r_ReplaceAllString. apply CodecFacts.sfilter_all.
  eapply CodecFacts.sforall_impl; [|apply sforall_sfilter].
  apply CodecFacts.ascii_all_impl. vm_compute. reflexivity.
Qed.

Section Convert.
Context `{CertTools}.

Lemma convert_loop_no_error keys dates rest half out e :
  convert_loop keys dates rest half out ≠ Err e.
Proof.
  revert half out.
  induction rest as [|d|d1 d2 rest IH] using ParseFacts.list_pair_ind;
    intros half out; simpl.
  - done.
  - by destruct (keys !! half).
  - destruct (keys !! half); [|done]. destruct (dates !! half); [|done].
    apply IH.
Qed.

Lemma convert_loop_inv keys dates rest half out items :
  (half <= length keys)%nat -> (half <= length dates)%nat ->
  convert_loop keys dates rest half out = Ok items ->
  exists n, length rest = (2 * n)%nat
    /\ (half + n <= length keys)%nat /\ (half + n <= length dates)%nat.
Proof.
  intros Hk Hd Hok.
  destruct (Nat.Even_or_Odd (length rest)) as [[n Hn]|Hodd].
  - exists n. split; [done|].
    destruct (decide (half + n <= length keys)%nat) as [Hkn|Hkn];
      [destruct (decide (half + n <= length dates)%nat) as [Hdn|Hdn]|].
    + done.
    + destruct (ParseFacts.convert_loop_short keys dates rest half out n)
        as [msg Hmsg]; [done|done|done|lia|congruence].
    + destruct (ParseFacts.convert_loop_short keys dates rest half out n)
        as [msg Hmsg]; [done|done|done|lia|congruence].
  - destruct (ParseFacts.convert_loop_odd keys dates rest half out Hodd)
      as [msg Hmsg]. congruence.
Qed.

Lemma length_items_of keys dates datas n :
  length datas = (2 * n)%nat ->
  (n <= length keys)%nat -> (n <= length dates)%nat ->
  length (items_of keys dates datas) = n.
Proof.
  revert keys dates n.
  induction datas as [|d|d1 d2 datas IH] using ParseFacts.list_pair_ind;
    intros keys dates n Hlen Hk Hd.
  - simpl in *. lia.
  - simpl in Hlen. lia.
  - simpl in Hlen. destruct keys as [|k keys]; [simpl in Hk; lia|].
    destruct dates as [|dt dates]; [simpl in Hd; lia|].
    simpl in *. rewrite (IH keys dates (n - 1)%nat); lia.
Qed.

Lemma items_of_lookup keys dates datas i it :
  items_of keys dates datas !! i = Some it ->
  exists k d1 d2 dt,
    keys !! i = Some k /\ dates !! i = Some dt
    /\ datas !! (2 * i)%nat = Some d1 /\ datas !! (2 * i + 1)%nat = Some d2
    /\ it = convert_item k d1 d2 dt.
Proof.
  revert keys dates datas.
  induction i as [|i IH]; intros keys dates datas Hit.
  - destruct datas as [|d1 [|d2 datas]]; [done..|].
    destruct keys as [|k keys]; [done|]. destruct dates as [|dt dates]; [done|].
    simpl in Hit. injection Hit as <-. by exists k, d1, d2, dt.
  - destruct datas as [|d1 [|d2 datas]]; [done..|].
    destruct keys as [|k keys]; [done|]. destruct dates as [|dt dates]; [done|].
    simpl in Hit. apply IH in Hit as (k' & d1' & d2' & dt' & ? & ? & ? & ? & ->).
    exists k', d1', d2', dt'.
    replace (2 * S i)%nat with (S (S (2 * i))) by lia.
    replace (S (S (2 * i)) + 1)%nat with (S (S (2 * i + 1))) by lia.
    done.
Qed.

(** X14. [convertToTrustItems] returns items exactly when the three nested
    dictionaries are there, the number of data entries is even and there
    are at least half as many keys and dates; it then returns one item for
    every two data entries.  It never returns an error: every other
    document makes it panic. *)
Theorem convertToTrustItems_returns_iff (p : plist) :
  ((exists items, convertToTrustItems p = Ok items)
   <-> exists outer inner innermost n,
         plistChiDict p = Some outer /\ ChiDict outer = Some inner
         /\ ChiDict inner = Some innermost
         /\ length (ChiData innermost) = (2 * n)%nat
         /\ (n <= length (ChiKey inner))%nat
         /\ (n <= length (ChiDate innermost))%nat)
  /\ (forall items, convertToTrustItems p = Ok items ->
        forall innermost,
          (plistChiDict p ≫= ChiDict) ≫= ChiDict = Some innermost ->
          length (ChiData innermost) = (2 * length items)%nat)
  /\ (forall e, convertToTrustItems p ≠ Err e)
  /\ ((forall items, convertToTrustItems p ≠ Ok items) ->
      exists msg, convertToTrustItems p = Panic msg).
Proof.
  split; [|split; [|split]].
  - split.
    + intros [items Hok]. unfold convertToTrustItems in Hok.
      destruct (plistChiDict p) as [outer|]; [|done].
      destruct (ChiDict outer) as [inner|] eqn:Ho; [|done].
      destruct (ChiDict inner) as [innermost|] eqn:Hi; [|done].
      apply convert_loop_inv in Hok as (n & Hn & Hk & Hd); [|lia..].
      exists outer, inner, innermost, n. by rewrite Ho, Hi.
    + intros (outer & inner & innermost & n & Hp & Ho & Hi & Hn & Hk & Hd).
      destruct p as [d]. simpl in Hp. subst d.
      eexists. by apply (ParseFacts.convertToTrustItems_ok outer inner innermost n).
  - intros items Hok innermost Hin. unfold convertToTrustItems in Hok.
    destruct (plistChiDict p) as [outer|]; [|done].
    destruct (ChiDict outer) as [inner|] eqn:Ho; [|done].
    destruct (ChiDict inner) as [innermost'|] eqn:Hi; [|done].
    simpl in Hin. rewrite Ho in Hin. simpl in Hin. rewrite Hi in Hin.
    injection Hin as ->.
    pose proof Hok as Hinv.
    apply convert_loop_inv in Hinv as (n & Hn & Hk & Hd); [|lia..].
    rewrite (ParseFacts.convert_loop_ok _ _ _ _ _ n) in Hok by done.
    injection Hok as <-. rewrite !drop_0. simpl.
    by rewrite (length_items_of _ _ _ n).
  - intros e. unfold convertToTrustItems.
    destruct (plistChiDict p) as [outer|]; [|done].
    destruct (ChiDict outer) as [inner|]; [|done].
    destruct (ChiDict inner) as [innermost|]; [|done].
    apply convert_loop_no_error.
  - intros Hno. destruct (convertToTrustItems p) as [items|e|msg|] eqn:E.
    + by destruct (Hno items).
    + revert E. unfold convertToTrustItems.
      destruct (plistChiDict p) as [outer|]; [|done].
      destruct (ChiDict outer) as [inner|]; [|done].
      destruct (ChiDict inner) as [innermost|]; [|done].
      intros E. by apply convert_loop_no_error in E.
    + by exists msg.
    + revert E. unfold convertToTrustItems.
      destruct (plistChiDict p) as [outer|]; [|done].
      destruct (ChiDict outer) as [inner|]; [|done].
      destruct (ChiDict inner) as [innermost|]; [|done].
      generalize (@nil trustItem) 0%nat. intros out half. revert half out.
      induction (ChiData innermost) as [|d|d1 d2 rest IH]
        using ParseFacts.list_pair_ind; intros half out; simpl.
      * done.
      * by destruct (ChiKey inner !! half).
      * destruct (ChiKey inner !! half); [|done].
        destruct (ChiDate innermost !! half); [|done]. apply IH.
Qed.

(** X15. Item [i] of the result of [convertToTrustItems] is made of key
    [i] of the dictionary of the trust list and, of the dictionary below
    it, date [i] and the data entries [2i] and [2i+1]: the records are
    matched to their fingerprints by position alone, and the keys inside a
    record are not looked at. *)
Theorem convertToTrustItems_by_position (outer inner innermost : dict)
    (items : trustItems) (i : nat) (it : trustItem) :
  ChiDict outer = Some inner -> ChiDict inner = Some innermost ->
  convertToTrustItems (Plist (Some outer)) = Ok items ->
  items !! i = Some it ->
  exists k d1 d2 dt,
    ChiKey inner !! i = Some k /\ ChiDate innermost !! i = Some dt
    /\ ChiData innermost !! (2 * i)%nat = Some d1
    /\ ChiData innermost !! (2 * i + 1)%nat = Some d2
    /\ it = convert_item k d1 d2 dt
    /\ convertToTrustItems
         (Plist (Some (Dict (ChiData outer) (ChiDate outer)
            (Some (Dict (ChiData inner) (ChiDate inner)
               (Some (Dict (ChiData innermost) (ChiDate innermost)
                        (ChiDict innermost) (ChiInteger innermost) []))
               (ChiInteger inner) (ChiKey inner)))
            (ChiInteger outer) (ChiKey outer))))
       = Ok items.
Proof.
  intros Ho Hi Hok Hit. unfold convertToTrustItems in Hok. simpl in Hok.
  rewrite Ho, Hi in Hok. pose proof Hok as Hinv.
  apply convert_loop_inv in Hinv as (n & Hn & Hk & Hd); [|lia..].
  rewrite (ParseFacts.convert_loop_ok _ _ _ _ _ n) in Hok by done.
  injection Hok as <-. rewrite !drop_0 in Hit. simpl in Hit.
  apply items_of_lookup in Hit as (k & d1 & d2 & dt & ? & ? & ? & ? & ->).
  exists k, d1, d2, dt. repeat split; try done.
  unfold convertToTrustItems. simpl.
  by rewrite (ParseFacts.convert_loop_ok _ _ _ _ _ n).
Qed.

(** X16. The items read from a snapshot are written as the snapshot they
    were read from, byte for byte, and read again they are the same items:
    after one reading, writing and reading change nothing more. *)
Theorem snapshot_is_stable_once_read (t t' : trustItems) :
  t ≠ [] -> Forall well_formed t ->
  ParseSnapshot (toXml t) = Ok t' ->
  toXml t' = toXml t /\ ParseSnapshot (toXml t') = Ok t'.
Proof.
  intros Hne Hwf Hread.
  rewrite (CodecFacts.ParseSnapshot_toXml t Hne Hwf) in Hread.
  injection Hread as <-.
  assert (toXml (read_back <$> t) = toXml t) as Hsame.
  { rewrite !CodecFacts.toXml_eq. f_equal. f_equal.
    clear Hne Hwf. induction t as [|it t IH]; [done|].
    rewrite fmap_cons. cbn [concat_items]. by rewrite IH. }
  split; [done|]. rewrite Hsame. by apply CodecFacts.ParseSnapshot_toXml.
Qed.

End Convert.

Import Example.

Lemma convertToTrustItems_by_position_witness :
  convertToTrustItems plist_two_records = Ok [record01; record02]
  /\ exists k d1 d2 dt,
       [Key "01"; Key "02"] !! 1%nat = Some k
       /\ record02 = convert_item k d1 d2 dt.
Proof.
  assert (convertToTrustItems plist_two_records = Ok [record01; record02])
    as Hok by (vm_compute; reflexivity).
  split; [exact Hok|].
  destruct (convertToTrustItems_by_position dict_outermost dict_trust_list
              dict_records _ 1%nat record02 eq_refl eq_refl Hok eq_refl)
    as (k & d1 & d2 & dt & Hk & _ & _ & _ & Hit & _).
  by exists k, d1, d2, dt.
Defined.

Lemma snapshot_is_stable_once_read_witness :
  toXml [read_back record_local] = toXml [record_local]
  /\ ParseSnapshot (toXml [read_back record_local]) = Ok [read_back record_local].
Proof.
  assert (Forall well_formed [record_local]) as Hwf.
  { apply Forall_singleton. split.
    - reflexivity.
    - eexists _, _. repeat split; reflexivity.
    - split; vm_compute; split; discriminate. }
  apply (snapshot_is_stable_once_read [record_local] [read_back record_local]);
    [done|exact Hwf|].
  exact (CodecFacts.ParseSnapshot_toXml [record_local] ltac:(done) Hwf).
Defined.

End ParseMore.


(** ** The order of the rows of the table *)

Module PrintMore.
Import GoStrings Print.

Lemma ascii_compare_refl (c : ascii) : Ascii.compare c c = Eq.
Proof. unfold Ascii.compare. apply N.compare_refl. Qed.

Lemma compare_refl (s : string) : String.compare s s = Eq.
Proof.
  induction s as [|c s IH]; [done|]. simpl. by rewrite ascii_compare_refl.
Qed.








Lemma insert_head_Permutation (l : list string) (n : nat) (a b : string) :
  l !! n = Some b -> b :: <[n := a]> l ≡ₚ a :: l.
Proof.
  revert n. induction l as [|x l IH]; intros [|n] Hn; try done.
  - simpl in Hn. injection Hn as ->. simpl. apply perm_swap.
  - simpl in Hn. simpl. rewrite (perm_swap x b), (IH n Hn). apply perm_swap.
Qed.

Lemma swap_Permutation (p : list string) (i j : nat) (a b : string) :
  p !! i = Some a -> p !! j = Some b -> <[j := a]> (<[i := b]> p) ≡ₚ p.
Proof.
  revert i j. induction p as [|x p IH]; intros [|i] [|j] Ha Hb; try done.
  - simpl in *. by simplify_eq.
  - simpl in *. injection Ha as ->. by apply insert_head_Permutation.
  - simpl in *. injection Hb as ->. by apply insert_head_Permutation.
  - simpl in *. f_equiv. by apply IH.
Qed.

(** X18. [Swap] on two positions of the slice exchanges the two rows and
    changes no other, so that the slice stays a permutation of the rows it
    had, and a second [Swap] of the same positions undoes the first. *)
Theorem Swap_exchanges (p p' : iStringSlice) (i j : nat) :
  Swap p i j = Ok p' ->
  p' !! i = p !! j /\ p' !! j = p !! i
  /\ (forall k, k ≠ i -> k ≠ j -> p' !! k = p !! k)
  /\ p' ≡ₚ p
  /\ Swap p' i j = Ok p.
Proof.
  unfold Swap, iStringSlice in *. destruct (p !! i) as [a|] eqn:Ha; [|done].
  destruct (p !! j) as [b|] eqn:Hb; [|done]. intros [= <-].
  pose proof (lookup_lt_Some _ _ _ Ha) as Hi.
  pose proof (lookup_lt_Some _ _ _ Hb) as Hj.
  assert (<[j:=a]> (<[i:=b]> p) !! i = Some b) as Hi'.
  { destruct (decide (i = j)) as [->|Hne].
    - rewrite list_lookup_insert_eq by (by rewrite length_insert). congruence.
    - rewrite list_lookup_insert_ne by done.
      by rewrite list_lookup_insert_eq. }
  assert (<[j:=a]> (<[i:=b]> p) !! j = Some a) as Hj'.
  { rewrite list_lookup_insert_eq; [done|]. by rewrite length_insert. }
  split; [congruence|]. split; [congruence|]. split; [|split].
  - intros k Hki Hkj. by rewrite !list_lookup_insert_ne.
  - by apply swap_Permutation.
  - rewrite Hi', Hj'. f_equal. apply list_eq. intros k.
    destruct (decide (k = j)) as [->|Hkj].
    + rewrite list_lookup_insert_eq; [done|]. by rewrite !length_insert.
    + rewrite list_lookup_insert_ne by done.
      destruct (decide (k = i)) as [->|Hki].
      * rewrite list_lookup_insert_eq; [done|]. by rewrite !length_insert.
      * by rewrite !list_lookup_insert_ne.
Qed.


Lemma Swap_exchanges_witness :
  Swap ["b"; "A"; "a"] 0 2 = Ok ["a"; "A"; "b"]
  /\ ["a"; "A"; "b"] ≡ₚ ["b"; "A"; "a"]
  /\ Swap ["a"; "A"; "b"] 0 2 = Ok ["b"; "A"; "a"].
Proof.
  assert (Swap ["b"; "A"; "a"] 0 2 = Ok ["a"; "A"; "b"]) as Hswap
    by reflexivity.
  split; [exact Hswap|].
  destruct (Swap_exchanges _ _ _ _ Hswap) as (_ & _ & _ & Hperm & Hback).
  by split.
Defined.

End PrintMore.

(** ** The fetcher: how a source is named *)

Module FetcherMore.
Import GoStrings Fetcher.

#[local] Arguments String.append !s1 s2 : simpl nomatch.

Lemma smap_app (f : ascii -> ascii) (a b : string) :
  smap f (a +:+ b) = smap f a +:+ smap f b.
Proof.
  induction a as [|x a IH]; [done|].
  change (String (f x) (smap f (a +:+ b)) = String (f x) (smap f a +:+ smap f b)).
  by rewrite IH.
Qed.

Lemma ToLower_app (a b : string) : ToLower (a +:+ b) = ToLower a +:+ ToLower b.
Proof. apply smap_app. Qed.

Lemma ToLower_space (s : string) : sforall is_space s = true -> ToLower s = s.
Proof.
  induction s as [|c s IH]; [done|].
  change (is_space c && sforall is_space s = true
          -> String (lower_char c) (ToLower s) = String c s).
  intros [Hc Hs]%andb_true_iff. rewrite (IH Hs). f_equal.
  apply Ascii.eqb_eq. revert c Hc.
  apply CodecFacts.ascii_all_impl. vm_compute. reflexivity.
Qed.

Lemma ToLower_ToUpper (s : string) : ToLower (ToUpper s) = ToLower s.
Proof.
  induction s as [|c s IH]; [done|].
  change (String (lower_char (upper_char c)) (ToLower (ToUpper s))
          = String (lower_char c) (ToLower s)).
  rewrite IH. f_equal. apply Ascii.eqb_eq. revert c.
  apply CodecFacts.ascii_all. vm_compute. reflexivity.
Qed.

Lemma ToLower_ToLower (s : string) : ToLower (ToLower s) = ToLower s.
Proof.
  induction s as [|c s IH]; [done|].
  change (String (lower_char (lower_char c)) (ToLower (ToLower s))
          = String (lower_char c) (ToLower s)).
  rewrite IH. f_equal. apply Ascii.eqb_eq. revert c.
  apply CodecFacts.ascii_all. vm_compute. reflexivity.
Qed.

Lemma trim_left_space (pre s : string) :
  sforall is_space pre = true -> trim_left (pre +:+ s) = trim_left s.
Proof.
  induction pre as [|c pre IH]; [done|].
  change (is_space c && sforall is_space pre = true
          -> (if is_space c then trim_left (pre +:+ s)
              else String c (pre +:+ s)) = trim_left s).
  intros [-> Hs]%andb_true_iff. by apply IH.
Qed.

Lemma trim_right_space (post : string) :
  sforall is_space post = true -> trim_right post = "".
Proof.
  induction post as [|c post IH]; [done|].
  change (is_space c && sforall is_space post = true -> trim_right (String c post) = "").
  intros [Hc Hs]%andb_true_iff. simpl. by rewrite (IH Hs), Hc.
Qed.

Lemma trim_right_app_space (s post : string) :
  sforall is_space post = true -> trim_right (s +:+ post) = trim_right s.
Proof.
  intros Hpost. induction s as [|c s IH]; [by apply trim_right_space|].
  change (trim_right (String c (s +:+ post)) = trim_right (String c s)).
  simpl. by rewrite IH.
Qed.

Lemma TrimSpace_padded (pre s post : string) :
  sforall is_space pre = true -> sforall is_space post = true ->
  TrimSpace (pre +:+ s +:+ post) = TrimSpace s.
Proof.
  intros Hpre Hpost. unfold TrimSpace. rewrite (trim_left_space _ _ Hpre).
  induction s as [|c s IH].
  - change (trim_right (trim_left post) = ""). 
    replace (trim_left post) with "".
    + done.
    + rewrite <- (CodecFacts.append_empty_r post).
      by rewrite (trim_left_space _ _ Hpost).
  - change (trim_right (if is_space c then trim_left (s +:+ post)
                        else String c (s +:+ post))
            = trim_right (if is_space c then trim_left s else String c s)).
    destruct (is_space c); [exact IH|].
    by apply (trim_right_app_space (String c s)).
Qed.

(** X19. A source is named without regard to the case of its ASCII
    letters or to white space before and after the name: an argument of
    ASCII characters selects the same source, or none, when it is put in
    upper or in lower case and when it is padded with spaces, tabs or line
    breaks. *)
Theorem source_of_ignores_case_and_padding (who pre post : string) :
  sforall is_ascii who = true ->
  sforall is_space pre = true -> sforall is_space post = true ->
  source_of (ToUpper who) = source_of who
  /\ source_of (ToLower who) = source_of who
  /\ source_of (pre +:+ who +:+ post) = source_of who.
Proof.
  intros _ Hpre Hpost. unfold source_of.
  rewrite ToLower_ToUpper, ToLower_ToLower.
  split; [done|]. split; [done|].
  replace (ToLower (pre +:+ who +:+ post))
    with (pre +:+ ToLower who +:+ post).
  - by rewrite (TrimSpace_padded _ _ _ Hpre Hpost).
  - rewrite !ToLower_app.
    by rewrite (ToLower_space _ Hpre), (ToLower_space _ Hpost).
Qed.

Lemma source_of_ignores_case_and_padding_witness :
  source_of "DARWIN" = Some Darwin
  /\ source_of (" " +:+ "Darwin" +:+ String "010" "") = Some Darwin.
Proof.
  destruct (source_of_ignores_case_and_padding "darwin" " " (String "010" ""))
    as (Hup & _ & _); [reflexivity..|].
  destruct (source_of_ignores_case_and_padding "Darwin" " " (String "010" ""))
    as (_ & _ & Hpad); [reflexivity..|].
  split; [exact Hup|]. rewrite Hpad. reflexivity.
Defined.

End FetcherMore.
